(** * vault-periodic-oidc-login: the freshness check, the supervised login
      and the sequencing of [main], embedded from [main.go]

    The program has three functions.  [ttl] reads a token file and asks
    Vault when the token expires; [oidcLogin] runs [vault login] under two
    timers; [main] calls [ttl], then [oidcLogin] when the token expires
    soon, then [ttl] again.

    Everything the program obtains from outside (the command line as
    [flag.Parse] sees it, the file system, the Vault server, the clock, the
    child process, the scheduler) is an explicit input of the model.
    Everything it does to the outside is appended to a trace of effects, in
    program order.  A function ends by returning or by a run-time panic. *)

From stdpp Require Import base gmap strings list.
From Stdlib Require Import ZArith Lia.
From Stdlib Require Import Strings.Byte.

Local Open Scope Z_scope.
Local Set Warnings "-clear-no-such-hyp".

(** ** Go values *)

(** [time.Time]: an instant, counted in nanoseconds from the Unix epoch.
    The range of [time.Time] is far larger than 64 bits of nanoseconds, so
    no bound is put on it. *)
Definition Time : Type := Z.

(** [time.Duration] is an [int64] count of nanoseconds. *)
Definition Duration : Type := Z.

Definition minDuration : Duration := - 2 ^ 63.
Definition maxDuration : Duration := 2 ^ 63 - 1.

Definition Nanosecond : Duration := 1.
Definition Microsecond : Duration := 1000 * Nanosecond.
Definition Millisecond : Duration := 1000 * Microsecond.
Definition Second : Duration := 1000 * Millisecond.
Definition Minute : Duration := 60 * Second.
Definition Hour : Duration := 60 * Minute.

(** [t.Sub(u)]: the difference [t - u]; when it does not fit a [Duration]
    the largest (or smallest) [Duration] is returned instead. *)
Definition time_Sub (t u : Time) : Duration :=
  let d := t - u in
  if d <? minDuration then minDuration
  else if maxDuration <? d then maxDuration
  else d.

(** [time.Until(t)] is [t.Sub(time.Now())]. *)
Definition time_Until (now t : Time) : Duration := time_Sub t now.

(** [time.RFC3339Nano] *)
Definition RFC3339Nano : string := "2006-01-02T15:04:05.999999999Z07:00".

(** How a child process ended, as [cmd.Wait] learns it. *)
Inductive WaitStatus : Type :=
| WExited (code : Z)
| WSignaled (sig : Z).

Definition SIGKILL : Z := 9.
Definition SIGTERM : Z := 15.

(** Go [error] values.  [Errorf format cause] is the error built by
    [fmt.Errorf(format, cause)] with a single [%v] verb. *)
Inductive error : Type :=
| ErrNotExist (path : string)
| ErrOther (msg : string)
| ExitError (ws : WaitStatus)
| Errorf (format : string) (cause : error).

(** [os.IsNotExist(err)]; [None] is the nil error. *)
Definition os_IsNotExist (err : option error) : bool :=
  match err with
  | Some (ErrNotExist _) => true
  | _ => false
  end.

(** A decoded JSON value, the dynamic content of an [interface{}] in
    [secret.Data]. *)
#[warnings="-register-all"]
Inductive JValue : Type :=
| JNull
| JBool (b : bool)
| JNumber (lit : string)
| JString (s : string)
| JArray (elems : list JValue)
| JObject (fields : list (string * JValue)).

(** [api.Secret]: only [Data] is read. *)
Record Secret : Type := { Data : gmap string JValue }.

(** [api.Client]: the program reads its address and writes its token. *)
Record Client : Type := { address : string; token : string }.

Definition Client_SetToken (c : Client) (v : string) : Client :=
  {| address := address c; token := v |}.

(** ** Effects *)

(** An argument of a [log.Printf] call. *)
Inductive Arg : Type :=
| AErr (e : error)
| ADur (d : Duration).

Inductive TimerName : Type := TermTimer | KillTimer.

(** What the program does to the outside, one entry per call.  [EUsage]
    is what [flag.Parse] prints for a command line it does not parse (the
    error, if any, and the usage text); [EPanic] is the report of the
    run-time system on a panic that nothing recovers. *)
Inductive Effect : Type :=
| EStat (path : string)
| EReadFile (path : string)
| ELookupSelf (c : Client)
| ELog (format : string) (args : list Arg)
| EStart (argv : list string)
| EGoWait
| EAfterFunc (t : TimerName) (d : Duration)
| ESignal (sig : Z)
| EStop (t : TimerName)
| EExit (code : Z)
| EUsage (err : option error)
| EPanic (msg : string).

(** What the outside answers during one call of [ttl]: [os.Stat] (only its
    error is looked at), [os.ReadFile], the lookup made with the client as
    it is at that point, and the clock.  [LookupSelf] returns a pointer and
    an error: [inl e] is a non-nil error, [inr (Some secret)] a secret with
    a nil error, and [inr None] a nil pointer with a nil error (the server
    answered with an empty body). *)
Record World : Type := {
  os_Stat : string -> option error;
  os_ReadFile : string -> error + list byte;
  LookupSelf : Client -> error + option Secret;
  time_Now : Time
}.

(** ** The state threaded through the program *)

(** The client behind the [*api.Client] pointer shared by [main], [ttl] and
    [oidcLogin], and the effects so far (oldest first). *)
Record St : Type := { client : Client; trace : list Effect }.

(** How a call ends: it returns a value, or it panics. *)
Inductive Result (A : Type) : Type :=
| Returned (a : A)
| Panicked (msg : string).

Arguments Returned {A} a.
Arguments Panicked {A} msg.

Definition M (A : Type) : Type := St -> Result A * St.

Definition ret {A} (a : A) : M A := fun s => (Returned a, s).

Definition bind {A B} (m : M A) (k : A -> M B) : M B :=
  fun s =>
    match m s with
    | (Returned a, s') => k a s'
    | (Panicked msg, s') => (Panicked msg, s')
    end.

Definition panic {A} (msg : string) : M A := fun s => (Panicked msg, s).

(** The message of the panic on a nil pointer. *)
Definition nil_dereference : string :=
  "runtime error: invalid memory address or nil pointer dereference".

Declare Scope go_scope.
Delimit Scope go_scope with go.
Notation "x <-- m ;; k" := (bind m (fun x => k))
  (at level 100, m at next level, right associativity) : go_scope.
Notation "m ;;; k" := (bind m (fun _ => k))
  (at level 100, right associativity) : go_scope.

Definition emit (e : Effect) : M unit :=
  fun s => (Returned tt, {| client := client s; trace := trace s ++ [e] |}).

Definition log_Printf (format : string) (args : list Arg) : M unit :=
  emit (ELog format args).

Definition getClient : M Client := fun s => (Returned (client s), s).

Definition SetToken (v : string) : M unit :=
  fun s =>
    (Returned tt,
     {| client := Client_SetToken (client s) v; trace := trace s |}).

Definition stat (w : World) (path : string) : M (option error) :=
  (emit (EStat path) ;;; ret (os_Stat w path))%go.

Definition readFile (w : World) (path : string) : M (error + list byte) :=
  (emit (EReadFile path) ;;; ret (os_ReadFile w path))%go.

Definition lookupSelf (w : World) : M (error + option Secret) :=
  (c <-- getClient ;; emit (ELookupSelf c) ;;; ret (LookupSelf w c))%go.

(** ** The freshness evaluation *)

Section Evaluator.

(** [time.Parse(layout, value)] of Go's standard library. *)
Variable time_Parse : string -> string -> error + Time.

(** [ttl], lines 50-94.  Line 73 reads [secret.Data] without comparing
    [secret] with nil. *)
Definition ttl (w : World) (tokenPath : string) : M Duration :=
  (err <-- stat w tokenPath ;;
   if os_IsNotExist err then ret 0
   else
     match err with
     | Some e =>
         log_Printf "### error accessing token file: %v" [AErr e] ;;;
         ret 0
     | None =>
         r <-- readFile w tokenPath ;;
         match r with
         | inl e =>
             log_Printf "### error reading token file: %v" [AErr e] ;;;
             ret 0
         | inr tokenData =>
             let token := String.string_of_list_byte tokenData in
             SetToken token ;;;
             r <-- lookupSelf w ;;
             match r with
             | inl e =>
                 log_Printf "### error looking up token: %v" [AErr e] ;;;
                 ret 0
             | inr None => panic nil_dereference
             | inr (Some secret) =>
                 match Data secret !! "expire_time"%string with
                 | None =>
                     log_Printf "### expire_time not found in token lookup data" [] ;;;
                     ret 0
                 | Some (JString expireTimeStr) =>
                     match time_Parse RFC3339Nano expireTimeStr with
                     | inl e =>
                         log_Printf "### error parsing expire_time: %v" [AErr e] ;;;
                         ret 0
                     | inr expireTime =>
                         ret (time_Until (time_Now w) expireTime)
                     end
                 | Some _ =>
                     log_Printf "### expire_time is not a string" [] ;;;
                     ret 0
                 end
             end
         end
     end)%go.

End Evaluator.

(** ** The supervised login *)

(** A [*time.Timer] made by [time.AfterFunc]. *)
Inductive TimerStatus : Type := Armed | Fired | Stopped.

Record Timer : Type := { deadline : Time; status : TimerStatus }.

(** [time.AfterFunc(d, f)] called at instant [now]. *)
Definition time_AfterFunc (now : Time) (d : Duration) : Timer :=
  {| deadline := now + d; status := Armed |}.

(** [t.Stop()]: prevents the timer from firing; nothing happens to a timer
    that has already fired or been stopped. *)
Definition Timer_Stop (t : Timer) : Timer :=
  match status t with
  | Armed => {| deadline := deadline t; status := Stopped |}
  | Fired | Stopped => t
  end.

Definition Timer_fired (t : Timer) : Timer :=
  {| deadline := deadline t; status := Fired |}.

(** The timer may run its function: armed and due. *)
Definition Timer_due (now : Time) (t : Timer) : bool :=
  match status t with
  | Armed => deadline t <=? now
  | Fired | Stopped => false
  end.

(** The child process [cmd.Process]. *)
Inductive Proc : Type :=
| NotStarted
| Running
| Exited (ws : WaitStatus).

(** [cmd.Wait()] once the child has ended: nil exactly for exit status 0. *)
Definition cmd_Wait (ws : WaitStatus) : option error :=
  match ws with
  | WExited 0 => None
  | _ => Some (ExitError ws)
  end.

(** Where the goroutine of [oidcLogin] stands, from line 127 on. *)
Inductive PC : Type :=
| PRecv                             (* err = <-done *)
| PStopTerm (err : option error)    (* termTimer.Stop() *)
| PStopKill (err : option error)    (* killTimer.Stop() *)
| PIfErr (err : option error)       (* if err != nil ... *)
| PReturned (res : option error).

(** A function handed to [time.AfterFunc]: not yet started, started in its
    own goroutine by the expiry of the timer, or finished. *)
Inductive Fn : Type := FnIdle | FnStarted | FnDone.

(** The state of one call of [oidcLogin]: the clock, the child, the
    goroutine that waits for it, the channel [done] (capacity 1), the two
    timers with their functions (the timers are absent until line 113 and
    line 120 have run), the calling goroutine, and the shared state of the
    program. *)
Record Sup : Type := {
  clock : Time;
  proc : Proc;
  waited : bool;
  done : option (option error);
  termTimer : option Timer;
  termFn : Fn;
  killTimer : option Timer;
  killFn : Fn;
  pc : PC;
  st : St
}.

Definition set_clock (s : Sup) (v : Time) : Sup :=
  {| clock := v; proc := proc s; waited := waited s; done := done s;
     termTimer := termTimer s; termFn := termFn s; killTimer := killTimer s;
     killFn := killFn s; pc := pc s; st := st s |}.

Definition set_proc (s : Sup) (v : Proc) : Sup :=
  {| clock := clock s; proc := v; waited := waited s; done := done s;
     termTimer := termTimer s; termFn := termFn s; killTimer := killTimer s;
     killFn := killFn s; pc := pc s; st := st s |}.

Definition set_waited (s : Sup) (v : bool) : Sup :=
  {| clock := clock s; proc := proc s; waited := v; done := done s;
     termTimer := termTimer s; termFn := termFn s; killTimer := killTimer s;
     killFn := killFn s; pc := pc s; st := st s |}.

Definition set_done (s : Sup) (v : option (option error)) : Sup :=
  {| clock := clock s; proc := proc s; waited := waited s; done := v;
     termTimer := termTimer s; termFn := termFn s; killTimer := killTimer s;
     killFn := killFn s; pc := pc s; st := st s |}.

Definition set_termTimer (s : Sup) (v : option Timer) : Sup :=
  {| clock := clock s; proc := proc s; waited := waited s; done := done s;
     termTimer := v; termFn := termFn s; killTimer := killTimer s;
     killFn := killFn s; pc := pc s; st := st s |}.

Definition set_termFn (s : Sup) (v : Fn) : Sup :=
  {| clock := clock s; proc := proc s; waited := waited s; done := done s;
     termTimer := termTimer s; termFn := v; killTimer := killTimer s;
     killFn := killFn s; pc := pc s; st := st s |}.

Definition set_killTimer (s : Sup) (v : option Timer) : Sup :=
  {| clock := clock s; proc := proc s; waited := waited s; done := done s;
     termTimer := termTimer s; termFn := termFn s; killTimer := v;
     killFn := killFn s; pc := pc s; st := st s |}.

Definition set_killFn (s : Sup) (v : Fn) : Sup :=
  {| clock := clock s; proc := proc s; waited := waited s; done := done s;
     termTimer := termTimer s; termFn := termFn s; killTimer := killTimer s;
     killFn := v; pc := pc s; st := st s |}.

Definition set_pc (s : Sup) (v : PC) : Sup :=
  {| clock := clock s; proc := proc s; waited := waited s; done := done s;
     termTimer := termTimer s; termFn := termFn s; killTimer := killTimer s;
     killFn := killFn s; pc := v; st := st s |}.

Definition sup_emit (s : Sup) (es : list Effect) : Sup :=
  {| clock := clock s; proc := proc s; waited := waited s; done := done s;
     termTimer := termTimer s; termFn := termFn s; killTimer := killTimer s;
     killFn := killFn s; pc := pc s;
     st := {| client := client (st s); trace := trace (st s) ++ es |} |}.

(** What can happen next during the call.  The answers of the operating
    system ride on the events: how the child ended, and what
    [Process.Signal] and [Process.Kill] returned.  The expiry of a timer
    starts its function in a goroutine of its own; the function runs at
    some later point, which [Stop] neither prevents nor waits for. *)
Inductive Event : Type :=
| Tick (d : Duration)            (* time passes *)
| ProcExit (ws : WaitStatus)     (* the child ends *)
| WaitReturn                     (* line 110: done <- cmd.Wait() *)
| TermFire                       (* termTimer expires: its function starts *)
| TermRun (r : option error)     (* lines 114-117 run *)
| KillFire                       (* killTimer expires: its function starts *)
| KillRun (r : option error)     (* lines 121-124 run *)
| MainStep.                      (* the caller runs its next statement *)

(** Lines 114-117 and 121-124: the function of a timer, given what the
    signal call returned. *)
Definition termFunc (r : option error) : list Effect :=
  [ELog "Sending SIGTERM to vault login process" []; ESignal SIGTERM] ++
  match r with
  | Some e => [ELog "Error sending SIGTERM: %v" [AErr e]]
  | None => []
  end.

Definition killFunc (r : option error) : list Effect :=
  [ELog "Sending SIGKILL to vault login process" []; ESignal SIGKILL] ++
  match r with
  | Some e => [ELog "Error sending SIGKILL: %v" [AErr e]]
  | None => []
  end.

(** Lines 127-137, one statement at a time.  At [PRecv] the caller is
    blocked until [done] holds a value. *)
Definition main_step (s : Sup) : option Sup :=
  match pc s with
  | PRecv =>
      match done s with
      | Some err => Some (set_pc (set_done s None) (PStopTerm err))
      | None => None
      end
  | PStopTerm err =>
      Some (set_pc (sup_emit (set_termTimer s (Timer_Stop <$> termTimer s))
                      [EStop TermTimer])
              (PStopKill err))
  | PStopKill err =>
      Some (set_pc (sup_emit (set_killTimer s (Timer_Stop <$> killTimer s))
                      [EStop KillTimer])
              (PIfErr err))
  | PIfErr (Some e) =>
      Some (set_pc s (PReturned (Some (Errorf "error during OIDC login: %v" e))))
  | PIfErr None =>
      Some (set_pc (sup_emit s [ELog "Logged in using OIDC successfully." []])
              (PReturned None))
  | PReturned _ => None
  end.

(** One event; [None] when the event cannot happen in state [s]. *)
Definition step (s : Sup) (ev : Event) : option Sup :=
  match ev with
  | Tick d =>
      if 0 <? d then Some (set_clock s (clock s + d)) else None
  | ProcExit ws =>
      match proc s with
      | Running => Some (set_proc s (Exited ws))
      | _ => None
      end
  | WaitReturn =>
      match proc s, waited s with
      | Exited ws, false => Some (set_done (set_waited s true) (Some (cmd_Wait ws)))
      | _, _ => None
      end
  | TermFire =>
      match termTimer s with
      | Some t =>
          if Timer_due (clock s) t
          then Some (set_termFn (set_termTimer s (Some (Timer_fired t))) FnStarted)
          else None
      | None => None
      end
  | TermRun r =>
      match termFn s with
      | FnStarted => Some (sup_emit (set_termFn s FnDone) (termFunc r))
      | FnIdle | FnDone => None
      end
  | KillFire =>
      match killTimer s with
      | Some t =>
          if Timer_due (clock s) t
          then Some (set_killFn (set_killTimer s (Some (Timer_fired t))) FnStarted)
          else None
      | None => None
      end
  | KillRun r =>
      match killFn s with
      | FnStarted => Some (sup_emit (set_killFn s FnDone) (killFunc r))
      | FnIdle | FnDone => None
      end
  | MainStep => main_step s
  end.

Fixpoint run (s : Sup) (evs : list Event) : option Sup :=
  match evs with
  | [] => Some s
  | ev :: evs' =>
      match step s ev with
      | Some s' => run s' evs'
      | None => None
      end
  end.

(** What the outside does during one call of [oidcLogin]: whether
    [cmd.Start] fails, the instant of the call, and the events after it. *)
Record LoginEnv : Type := {
  start_result : option error;
  start_time : Time;
  schedule : list Event
}.

(** Line 98: the command line. *)
Definition login_argv (c : Client) : list string :=
  ["vault"; "login"; "-method=oidc"; "-address"; address c]%string.

(** Lines 98-125.  A failed start returns at line 105.  Otherwise the
    waiting goroutine and the two timers are created, all at the instant of
    the call, and the caller reaches the receive of line 127. *)
Definition oidcLogin_enter (startErr : option error) (now : Time) (s : St) : Sup :=
  match startErr with
  | Some e =>
      {| clock := now; proc := NotStarted; waited := false; done := None;
         termTimer := None; termFn := FnIdle;
         killTimer := None; killFn := FnIdle;
         pc := PReturned (Some (Errorf "error starting vault login: %v" e));
         st := {| client := client s;
                  trace := trace s ++ [EStart (login_argv (client s))] |} |}
  | None =>
      {| clock := now; proc := Running; waited := false; done := None;
         termTimer := Some (time_AfterFunc now (1 * Minute)); termFn := FnIdle;
         killTimer := Some (time_AfterFunc now (90 * Second)); killFn := FnIdle;
         pc := PRecv;
         st := {| client := client s;
                  trace := trace s ++
                    [EStart (login_argv (client s)); EGoWait;
                     EAfterFunc TermTimer (1 * Minute);
                     EAfterFunc KillTimer (90 * Second)] |} |}
  end.

(** [oidcLogin], lines 97-138: the result once the caller has returned;
    [None] when the schedule is impossible or ends with the caller still
    inside the call. *)
Definition oidcLogin (env : LoginEnv) (s : St) : option (option error * St) :=
  match run (oidcLogin_enter (start_result env) (start_time env) s) (schedule env) with
  | Some s' =>
      match pc s' with
      | PReturned res => Some (res, st s')
      | _ => None
      end
  | None => None
  end.

(** ** The sequencing of [main] *)

(** The three flags of lines 16-19, as [flag.Parse()] sets them. *)
Record Flags : Type := {
  vaultAddr : string;
  unexpandedTokenPath : string;
  minTTLStr : string
}.

(** What the outside does during one run after the command line has been
    read: the client constructor and the environment of the process, the
    world seen by the first call of [ttl], the course of the login, and the
    world seen by the second call of [ttl]. *)
Record Env : Type := {
  api_NewClient : string -> error + Client;
  os_ExpandEnv : string -> string;
  world1 : World;
  login : LoginEnv;
  world2 : World
}.

(** The outcome of [flag.Parse()], line 20, for the command line of the
    run: the three flags; or a request for help ([-h], [-help]), on which
    [flag.Parse] prints the usage and calls [os.Exit(0)]; or a command line
    that it rejects, on which it prints the error and the usage and calls
    [os.Exit(2)]. *)
Inductive CommandLine : Type :=
| FlagsOk (fl : Flags)
| FlagsHelp
| FlagsBad (err : error).

(** [log.Fatalf]: the message, then [os.Exit(1)]. *)
Definition log_Fatalf (tr : list Effect) (format : string) (args : list Arg)
  : Z * list Effect :=
  (1, tr ++ [ELog format args; EExit 1]).

Definition os_Exit (tr : list Effect) (code : Z) : Z * list Effect :=
  (code, tr ++ [EExit code]).

(** A panic that nothing recovers: the run-time system reports it and the
    process ends with exit status 2. *)
Definition go_panic (tr : list Effect) (msg : string) : Z * list Effect :=
  (2, tr ++ [EPanic msg]).

Section Orchestrator.

Variable time_Parse : string -> string -> error + Time.

(** [time.ParseDuration] of Go's standard library. *)
Variable time_ParseDuration : string -> error + Duration.

(** Lines 22-47, with the flags that [flag.Parse] has set. *)
Definition main_flags (env : Env) (fl : Flags) : option (Z * list Effect) :=
  match time_ParseDuration (minTTLStr fl) with
  | inl err => Some (log_Fatalf [] "### error parsing duration: %v" [AErr err])
  | inr minTTL =>
      match api_NewClient env (vaultAddr fl) with
      | inl err =>
          Some (log_Fatalf [] "### error creating vault client: %v" [AErr err])
      | inr c =>
          let tokenPath := os_ExpandEnv env (unexpandedTokenPath fl) in
          match ttl time_Parse (world1 env) tokenPath
                  {| client := c; trace := [] |} with
          | (Panicked msg, s1) => Some (go_panic (trace s1) msg)
          | (Returned currTTL, s1) =>
              if currTTL >? minTTL then
                Some (os_Exit (trace s1 ++
                         [ELog "### token ttl is not expiring soon: %v"
                            [ADur currTTL]])
                        0)
              else
                match oidcLogin (login env) s1 with
                | None => None
                | Some (Some err, s2) =>
                    Some (log_Fatalf (trace s2)
                            "### error doing vault login: %v" [AErr err])
                | Some (None, s2) =>
                    match ttl time_Parse (world2 env) tokenPath s2 with
                    | (Panicked msg, s3) => Some (go_panic (trace s3) msg)
                    | (Returned newTTL, s3) =>
                        Some (os_Exit (trace s3 ++
                                 [ELog "### current token ttl is now %v"
                                    [ADur newTTL]])
                                0)
                    end
                end
          end
      end
  end.

(** [main], lines 15-47: the exit status and the effects of the run;
    [None] when the run is still inside [oidcLogin] at the end of the
    schedule. *)
Definition main (env : Env) (cl : CommandLine) : option (Z * list Effect) :=
  match cl with
  | FlagsHelp => Some (os_Exit [EUsage None] 0)
  | FlagsBad err => Some (os_Exit [EUsage (Some err)] 2)
  | FlagsOk fl => main_flags env fl
  end.

End Orchestrator.

(** ** Observations on traces *)

Definition is_EStart (e : Effect) : bool :=
  match e with EStart _ => true | _ => false end.

Definition is_EReadFile (e : Effect) : bool :=
  match e with EReadFile _ => true | _ => false end.

Definition is_ELookupSelf (e : Effect) : bool :=
  match e with ELookupSelf _ => true | _ => false end.

Definition is_EAfterFunc (e : Effect) : bool :=
  match e with EAfterFunc _ _ => true | _ => false end.

(** The login command was run. *)
Definition login_invoked (tr : list Effect) : bool := existsb is_EStart tr.

(** ** What the claims speak of *)

Section EvaluatorCases.

Variable time_Parse : string -> string -> error + Time.

(** The ways in which [ttl] can fail to learn the expiry instant, for the
    world [w], the path [p] and the client [c] of the call: each one names
    the step that fails, the steps before it having gone through. *)
Inductive ttl_failure (w : World) (p : string) (c : Client) : Prop :=
| F_not_exist :
    os_IsNotExist (os_Stat w p) = true -> ttl_failure w p c
| F_access e :
    os_Stat w p = Some e -> ttl_failure w p c
| F_read e :
    os_Stat w p = None -> os_ReadFile w p = inl e -> ttl_failure w p c
| F_lookup tokenData e :
    os_Stat w p = None -> os_ReadFile w p = inr tokenData ->
    LookupSelf w (Client_SetToken c (String.string_of_list_byte tokenData)) = inl e ->
    ttl_failure w p c
| F_no_expiry tokenData secret :
    os_Stat w p = None -> os_ReadFile w p = inr tokenData ->
    LookupSelf w (Client_SetToken c (String.string_of_list_byte tokenData)) = inr (Some secret) ->
    Data secret !! "expire_time"%string = None ->
    ttl_failure w p c
| F_not_string tokenData secret v :
    os_Stat w p = None -> os_ReadFile w p = inr tokenData ->
    LookupSelf w (Client_SetToken c (String.string_of_list_byte tokenData)) = inr (Some secret) ->
    Data secret !! "expire_time"%string = Some v ->
    (forall str, v <> JString str) ->
    ttl_failure w p c
| F_parse tokenData secret str e :
    os_Stat w p = None -> os_ReadFile w p = inr tokenData ->
    LookupSelf w (Client_SetToken c (String.string_of_list_byte tokenData)) = inr (Some secret) ->
    Data secret !! "expire_time"%string = Some (JString str) ->
    time_Parse RFC3339Nano str = inl e ->
    ttl_failure w p c.

(** The token file is readable, the lookup answers, and its [expire_time]
    is a string that parses to the instant [t]. *)
Definition ttl_expiry (w : World) (p : string) (c : Client) (t : Time) : Prop :=
  exists tokenData secret str,
    os_Stat w p = None /\
    os_ReadFile w p = inr tokenData /\
    LookupSelf w (Client_SetToken c (String.string_of_list_byte tokenData)) = inr (Some secret) /\
    Data secret !! "expire_time"%string = Some (JString str) /\
    time_Parse RFC3339Nano str = inr t.

(** The token file is readable and the lookup returns a nil pointer with a
    nil error. *)
Definition ttl_nil_secret (w : World) (p : string) (c : Client) : Prop :=
  exists tokenData,
    os_Stat w p = None /\
    os_ReadFile w p = inr tokenData /\
    LookupSelf w (Client_SetToken c (String.string_of_list_byte tokenData)) = inr None.

End EvaluatorCases.

(** What line 132 makes of the value received from [done]. *)
Definition login_result (err : option error) : option error :=
  match err with
  | Some e => Some (Errorf "error during OIDC login: %v" e)
  | None => None
  end.

(** The child has ended, [cmd.Wait] has returned in the waiting goroutine,
    and [err] is what it returned. *)
Definition wait_done (s : Sup) (err : option error) : Prop :=
  exists ws, proc s = Exited ws /\ waited s = true /\ err = cmd_Wait ws.

(** The timer exists and was armed for the instant [dl]. *)
Definition timer_for (t : option Timer) (dl : Time) : Prop :=
  exists x, t = Some x /\ deadline x = dl.

(** The timer exists and can no longer fire. *)
Definition timer_inert (t : option Timer) : Prop :=
  exists x, t = Some x /\ status x <> Armed.

(** [Stop] has been called on the timer, which can no longer fire. *)
Definition timer_stopped (n : TimerName) (t : option Timer) (s : Sup) : Prop :=
  timer_inert t /\ EStop n ∈ trace (st s).

(** What holds at every point of a call whose child was started at the
    instant [t0]. *)
Definition Inv (t0 : Time) (s : Sup) : Prop :=
  proc s <> NotStarted /\
  timer_for (termTimer s) (t0 + 1 * Minute) /\
  timer_for (killTimer s) (t0 + 90 * Second) /\
  match pc s with
  | PRecv =>
      match done s with
      | Some err => wait_done s err
      | None => True
      end
  | PStopTerm err =>
      done s = None /\ wait_done s err
  | PStopKill err =>
      done s = None /\ wait_done s err /\
      timer_stopped TermTimer (termTimer s) s
  | PIfErr err =>
      done s = None /\ wait_done s err /\
      timer_stopped TermTimer (termTimer s) s /\
      timer_stopped KillTimer (killTimer s) s
  | PReturned res =>
      exists err,
        res = login_result err /\
        done s = None /\ wait_done s err /\
        timer_stopped TermTimer (termTimer s) s /\
        timer_stopped KillTimer (killTimer s) s
  end.

(** The call has returned [res] without a child: no timer exists and no
    timer function has been started. *)
Definition never_started (res : option error) (s : Sup) : Prop :=
  pc s = PReturned res /\ proc s = NotStarted /\
  termTimer s = None /\ killTimer s = None /\
  termFn s = FnIdle /\ killFn s = FnIdle.

(** ** Concrete inputs *)

Definition sample_path : string := "/home/op/.vault-token".

(** The bytes of a token file: [s.abc], as the token helper of [vault]
    writes it. *)
Definition sample_token_bytes : list byte :=
  String.list_byte_of_string "s.abc".

(** The same with a line feed at the end, as an editor would leave it. *)
Definition lf_token_bytes : list byte :=
  String.list_byte_of_string "s.abc" ++ [x0a].

(** The check that the Vault client makes on its token before it sends any
    request: a token with a character that is not printable is refused. *)
Definition printable (b : byte) : bool :=
  (32 <=? Byte.to_N b)%N && (Byte.to_N b <=? 126)%N.

Definition token_refused (tok : string) : bool :=
  negb (forallb printable (String.list_byte_of_string tok)).

(** A server that knows the token [s.abc] and answers with [answer]. *)
Definition sample_lookup (answer : option Secret) (c : Client)
  : error + option Secret :=
  if token_refused (token c)
  then inl (ErrOther "configured Vault token contains non-printable characters and cannot be used")
  else if String.eqb (token c) "s.abc" then inr answer
  else inl (ErrOther "permission denied").

(** A file system with one file, at [sample_path], holding [file]. *)
Definition sample_Stat (p : string) : option error :=
  if String.eqb p sample_path then None else Some (ErrNotExist p).

Definition sample_ReadFile (file : list byte) (p : string) : error + list byte :=
  if String.eqb p sample_path then inr file else inl (ErrNotExist p).

(** A parser that knows four RFC 3339 timestamps. *)
Definition sample_time_Parse (layout value : string) : error + Time :=
  if String.eqb layout RFC3339Nano then
    if String.eqb value "2020-01-01T00:00:00Z" then inr (1577836800 * Second)
    else if String.eqb value "2026-11-03T00:00:00Z" then inr (1793664000 * Second)
    else if String.eqb value "2030-01-01T00:00:00Z" then inr (1893456000 * Second)
    else if String.eqb value "2500-01-01T00:00:00Z" then inr (16725225600 * Second)
    else inl (ErrOther "parsing time: cannot parse")
  else inl (ErrOther "parsing time: unknown layout").

Definition sample_time_ParseDuration (s : string) : error + Duration :=
  if String.eqb s "72h" then inr (72 * Hour)
  else inl (ErrOther "time: invalid duration").

(** 2026-10-31T00:00:00Z *)
Definition sample_now : Time := 1793404800 * Second.

(** A world with the token file in place, a server that knows the token
    and answers with [data], and the clock at [now]. *)
Definition sample_world (now : Time) (data : gmap string JValue) : World :=
  {| os_Stat := sample_Stat;
     os_ReadFile := sample_ReadFile sample_token_bytes;
     LookupSelf := sample_lookup (Some {| Data := data |});
     time_Now := now |}.

(** The same world with the line feed at the end of the token file. *)
Definition lf_world (now : Time) (data : gmap string JValue) : World :=
  {| os_Stat := sample_Stat;
     os_ReadFile := sample_ReadFile lf_token_bytes;
     LookupSelf := sample_lookup (Some {| Data := data |});
     time_Now := now |}.

(** A world in which the server answers the lookup with an empty body. *)
Definition empty_body_world (now : Time) : World :=
  {| os_Stat := sample_Stat;
     os_ReadFile := sample_ReadFile sample_token_bytes;
     LookupSelf := sample_lookup None;
     time_Now := now |}.

Definition expires_at (stamp : string) : gmap string JValue :=
  {[ "expire_time"%string := JString stamp ]}.

Definition sample_client : Client :=
  {| address := "https://vault.acme.com"; token := "" |}.

Definition sample_st : St := {| client := sample_client; trace := [] |}.

(** The child exits with status 0 after five seconds. *)
Definition sched_clean_exit : list Event :=
  [Tick (5 * Second); ProcExit (WExited 0); WaitReturn;
   MainStep; MainStep; MainStep; MainStep].

(** The child exits with status 1 after five seconds. *)
Definition sched_exit_one : list Event :=
  [Tick (5 * Second); ProcExit (WExited 1); WaitReturn;
   MainStep; MainStep; MainStep; MainStep].

(** The child ignores SIGTERM and is killed at ninety seconds. *)
Definition sched_escalation : list Event :=
  [Tick (60 * Second); TermFire; TermRun None;
   Tick (30 * Second); KillFire; KillRun None;
   ProcExit (WSignaled SIGKILL); WaitReturn;
   MainStep; MainStep; MainStep; MainStep].

(** The child exits with status 0 at one minute; the first timer fires
    before the caller has stopped it, and the signal is refused. *)
Definition sched_late_signal : list Event :=
  [Tick (60 * Second); ProcExit (WExited 0); WaitReturn;
   TermFire; TermRun (Some (ErrOther "os: process already finished"));
   MainStep; MainStep; MainStep; MainStep].

Definition sample_flags : Flags :=
  {| vaultAddr := "https://vault.acme.com";
     unexpandedTokenPath := "$HOME/.vault-token";
     minTTLStr := "72h" |}.

Definition sample_NewClient (addr : string) : error + Client :=
  inr {| address := addr; token := "" |}.

Definition sample_ExpandEnv (s : string) : string :=
  if String.eqb s "$HOME/.vault-token" then sample_path else s.

(** A run in which the token expires in exactly 72 hours and the login
    command exits with status 1. *)
Definition env_at_threshold : Env :=
  {| api_NewClient := sample_NewClient;
     os_ExpandEnv := sample_ExpandEnv;
     world1 := sample_world sample_now (expires_at "2026-11-03T00:00:00Z");
     login := {| start_result := None; start_time := sample_now;
                 schedule := sched_exit_one |};
     world2 := sample_world (sample_now + 5 * Second)
                 (expires_at "2026-11-03T00:00:00Z") |}.

(** A run in which the token expires in more than three years. *)
Definition env_fresh : Env :=
  {| api_NewClient := sample_NewClient;
     os_ExpandEnv := sample_ExpandEnv;
     world1 := sample_world sample_now (expires_at "2030-01-01T00:00:00Z");
     login := {| start_result := None; start_time := sample_now;
                 schedule := [] |};
     world2 := sample_world sample_now (expires_at "2030-01-01T00:00:00Z") |}.

(** A run in which the token has expired, the login command exits with
    status 0, and the server does not answer the second lookup. *)
Definition env_renewed : Env :=
  {| api_NewClient := sample_NewClient;
     os_ExpandEnv := sample_ExpandEnv;
     world1 := sample_world sample_now (expires_at "2020-01-01T00:00:00Z");
     login := {| start_result := None; start_time := sample_now;
                 schedule := sched_clean_exit |};
     world2 :=
       {| os_Stat := os_Stat (sample_world sample_now ∅);
          os_ReadFile := os_ReadFile (sample_world sample_now ∅);
          LookupSelf := fun _ => inl (ErrOther "connection refused");
          time_Now := sample_now + 5 * Second |} |}.

(** A run in which the server answers the first lookup with an empty
    body. *)
Definition env_empty_body : Env :=
  {| api_NewClient := sample_NewClient;
     os_ExpandEnv := sample_ExpandEnv;
     world1 := empty_body_world sample_now;
     login := {| start_result := None; start_time := sample_now;
                 schedule := [] |};
     world2 := empty_body_world sample_now |}.

(** The state of a call started at [t0] from [sample_st] after the events
    [evs] (the state on entry when they cannot happen). *)
Definition sup_after (t0 : Time) (evs : list Event) : Sup :=
  default (oidcLogin_enter None t0 sample_st)
    (run (oidcLogin_enter None t0 sample_st) evs).





(** ** Further observations on traces and states *)

Definition is_ELog (e : Effect) : bool :=
  match e with ELog _ _ => true | _ => false end.

Definition is_EStat (e : Effect) : bool :=
  match e with EStat _ => true | _ => false end.

Definition is_EExit (e : Effect) : bool :=
  match e with EExit _ => true | _ => false end.

(** The effect ends the process: a call of [os.Exit], or the report of a
    panic. *)
Definition ends_run (e : Effect) : bool :=
  match e with EExit _ | EPanic _ => true | _ => false end.

(** The effect is the sending of the signal [sig]. *)
Definition sends (sig : Z) (e : Effect) : bool :=
  match e with ESignal n => n =? sig | _ => false end.

(** How many effects of a trace satisfy [f]. *)
Definition count (f : Effect -> bool) (tr : list Effect) : nat :=
  length (List.filter f tr).

(** The effects of [tr] that come after those of [base]. *)
Definition effects_since (base tr : list Effect) : list Effect :=
  drop (length base) tr.

(** The kinds of effect that [ttl] has, and those that the events of
    [oidcLogin] after the start of the child have. *)
Definition ttl_kind (e : Effect) : bool :=
  match e with
  | EStat _ | EReadFile _ | ELookupSelf _ | ELog _ _ => true
  | _ => false
  end.

Definition supervision_kind (e : Effect) : bool :=
  match e with
  | ELog _ _ | EGoWait | EAfterFunc _ _ | ESignal _ | EStop _ => true
  | _ => false
  end.

Section EvaluatorEffects.

Variable time_Parse : string -> string -> error + Time.

(** The effects of one call of [ttl]. *)
Definition ttl_effects (w : World) (p : string) (s : St) : list Effect :=
  effects_since (trace s) (trace (snd (ttl time_Parse w p s))).

End EvaluatorEffects.

(** The function of a timer has run to its end: once, or not at all. *)
Definition fn_ran (f : Fn) : nat :=
  match f with
  | FnDone => 1%nat
  | FnIdle | FnStarted => 0%nat
  end.

(** The timer [t], armed for the duration [d] at the instant [t0], and its
    function [f] agree: the function has been started exactly when the timer
    has fired, and the timer has fired only with its deadline behind the
    clock. *)
Definition timer_tracks (t0 : Time) (d : Duration) (t : option Timer) (f : Fn)
    (clk : Time) : Prop :=
  exists x,
    t = Some x /\ deadline x = t0 + d /\
    (f = FnIdle <-> status x <> Fired) /\
    (status x = Fired -> deadline x <= clk).

(** Bookkeeping of a call whose child was started at the instant [t0] with
    the effects [base] behind it: each signal has been sent as often as the
    function that sends it has run; the timers and their functions agree;
    the channel holds a value only between the return of [cmd.Wait] and the
    receive of the caller, and the caller blocked at the receive after the
    return of [cmd.Wait] finds the value there. *)
Definition Ledger (t0 : Time) (base : list Effect) (s : Sup) : Prop :=
  count (sends SIGTERM) (trace (st s)) =
    (count (sends SIGTERM) base + fn_ran (termFn s))%nat /\
  count (sends SIGKILL) (trace (st s)) =
    (count (sends SIGKILL) base + fn_ran (killFn s))%nat /\
  timer_tracks t0 (1 * Minute) (termTimer s) (termFn s) (clock s) /\
  timer_tracks t0 (90 * Second) (killTimer s) (killFn s) (clock s) /\
  (waited s = false -> done s = None /\ pc s = PRecv) /\
  (waited s = true -> pc s = PRecv -> is_Some (done s)).

(** The trace of a run of [main] with the sample parsers (empty when the
    run does not end). *)
Definition main_trace (env : Env) (cl : CommandLine) : list Effect :=
  match main sample_time_Parse sample_time_ParseDuration env cl with
  | Some (_, tr) => tr
  | None => []
  end.

(** A world in which the token file is there and cannot be read. *)
Definition unreadable_world : World :=
  {| os_Stat := fun _ => None;
     os_ReadFile := fun _ => inl (ErrOther "permission denied");
     LookupSelf := fun _ => inl (ErrOther "connection refused");
     time_Now := sample_now |}.

(** The pieces of the run [env_at_threshold]. *)
Definition threshold_first : Result Duration * St :=
  ttl sample_time_Parse (world1 env_at_threshold)
    (os_ExpandEnv env_at_threshold (unexpandedTokenPath sample_flags))
    {| client := {| address := vaultAddr sample_flags; token := "" |};
       trace := [] |}.

Definition threshold_final : Sup :=
  default (oidcLogin_enter None sample_now (snd threshold_first))
    (run (oidcLogin_enter None sample_now (snd threshold_first)) sched_exit_one).

(** ** The freshness evaluation: theorems *)

Ltac ttl_run :=
  unfold ttl, stat, readFile, lookupSelf, log_Printf, SetToken, getClient,
    emit, bind, ret, Client_SetToken; simpl.

Section EvaluatorFacts.

Variable time_Parse : string -> string -> error + Time.

Lemma ttl_address (w : World) (p : string) (s : St) :
  address (client (snd (ttl time_Parse w p s))) = address (client s).
Proof.
  ttl_run. repeat case_match; reflexivity.
Qed.

Lemma ttl_trace (w : World) (p : string) (s : St) :
  exists ext,
    trace (snd (ttl time_Parse w p s)) = trace s ++ ext /\
    existsb is_EStart ext = false.
Proof.
  ttl_run. repeat case_match; simpl; rewrite <- ?app_assoc; eexists; (split; [reflexivity|reflexivity]).
Qed.

Lemma time_Sub_sign (t u : Time) :
  (u < t -> 0 < time_Sub t u) /\ (t < u -> time_Sub t u < 0).
Proof.
  unfold time_Sub, minDuration, maxDuration.
  split; intros H; repeat case_match; lia.
Qed.

Lemma time_Sub_exact (t u : Time) :
  minDuration <= t - u <= maxDuration -> time_Sub t u = t - u.
Proof.
  unfold time_Sub. intros H. repeat case_match; lia.
Qed.

Lemma time_Sub_saturates (t u : Time) :
  (maxDuration < t - u -> time_Sub t u = maxDuration) /\
  (t - u < minDuration -> time_Sub t u = minDuration).
Proof.
  unfold time_Sub, minDuration, maxDuration.
  split; intros H; repeat case_match; lia.
Qed.

Lemma ttl_expiry_value (w : World) (p : string) (s : St) (t : Time) :
  ttl_expiry time_Parse w p (client s) t ->
  fst (ttl time_Parse w p s) = Returned (time_Until (time_Now w) t).
Proof.
  intros (tokenData & secret & str & Hstat & Hread & Hlook & Hdata & Hparse).
  ttl_run. rewrite Hstat. simpl. rewrite Hread. simpl.
  unfold Client_SetToken in Hlook. rewrite Hlook. simpl.
  rewrite Hdata, Hparse. reflexivity.
Qed.

Lemma ttl_nil_secret_value (w : World) (p : string) (s : St) :
  ttl_nil_secret w p (client s) ->
  fst (ttl time_Parse w p s) = Panicked nil_dereference.
Proof.
  intros (tokenData & Hstat & Hread & Hlook).
  ttl_run. rewrite Hstat. simpl. rewrite Hread. simpl.
  unfold Client_SetToken in Hlook. rewrite Hlook. reflexivity.
Qed.

Lemma ttl_failure_or_expiry (w : World) (p : string) (c : Client) :
  ttl_failure time_Parse w p c \/
  (exists t, ttl_expiry time_Parse w p c t) \/
  ttl_nil_secret w p c.
Proof.
  destruct (os_Stat w p) as [e|] eqn:Hst; [left; eapply F_access; eassumption|].
  destruct (os_ReadFile w p) as [e|td] eqn:Hrd; [left; eapply F_read; eassumption|].
  destruct (LookupSelf w (Client_SetToken c (String.string_of_list_byte td)))
    as [e|[sec|]] eqn:Hlk; [left; eapply F_lookup; eassumption| |].
  2:{ right. right. exists td. auto. }
  destruct (Data sec !! "expire_time"%string) as [v|] eqn:Hd;
    [|left; eapply F_no_expiry; eassumption].
  destruct v as [|b|n|str|l|l];
    try (left; eapply F_not_string; [eassumption..|discriminate]).
  destruct (time_Parse RFC3339Nano str) as [e|t] eqn:Hp;
    [left; eapply F_parse; eassumption|].
  right. left. exists t, td, sec, str. auto.
Qed.

(** Whichever of the listed steps fails (the path does not exist, the path
    cannot be accessed, the file cannot be read, the lookup returns an
    error, the answer has no [expire_time], the [expire_time] is not a
    string, the string does not parse), [ttl] returns zero. *)
Lemma ttl_failure_is_zero (w : World) (p : string) (s : St) :
  ttl_failure time_Parse w p (client s) ->
  fst (ttl time_Parse w p s) = Returned 0.
Proof.
  intros Hfail. ttl_run.
  destruct Hfail as
    [Hne | e Hst | e Hst Hrd | td e Hst Hrd Hlk | td sec Hst Hrd Hlk Hd
    | td sec v Hst Hrd Hlk Hd Hv | td sec str e Hst Hrd Hlk Hd Hp].
  - rewrite Hne. reflexivity.
  - rewrite Hst. destruct e; reflexivity.
  - rewrite Hst. simpl. rewrite Hrd. reflexivity.
  - rewrite Hst. simpl. rewrite Hrd. simpl.
    unfold Client_SetToken in Hlk. rewrite Hlk. reflexivity.
  - rewrite Hst. simpl. rewrite Hrd. simpl.
    unfold Client_SetToken in Hlk. rewrite Hlk. simpl. rewrite Hd. reflexivity.
  - rewrite Hst. simpl. rewrite Hrd. simpl.
    unfold Client_SetToken in Hlk. rewrite Hlk. simpl. rewrite Hd.
    destruct v; try reflexivity. exfalso. eapply Hv. reflexivity.
  - rewrite Hst. simpl. rewrite Hrd. simpl.
    unfold Client_SetToken in Hlk. rewrite Hlk. simpl. rewrite Hd, Hp.
    reflexivity.
Qed.

(** C7, as the code has it.  When the file is readable, the lookup answers
    with a secret and its expiry parses to [t], [ttl] returns [t] minus the
    current time kept within the range of a [Duration]: strictly positive
    for an expiry in the future, equal to the difference when that is at
    most [maxDuration] and to [maxDuration] when it is more; strictly
    negative for an expiry in the past, equal to the difference when that
    is at least [minDuration] and to [minDuration] when it is less. *)
Theorem ttl_expiry_minus_now (w : World) (p : string) (s : St) (t : Time) :
  ttl_expiry time_Parse w p (client s) t ->
  let d := time_Sub t (time_Now w) in
  fst (ttl time_Parse w p s) = Returned d /\
  (time_Now w < t ->
   0 < d /\
   (t - time_Now w <= maxDuration -> d = t - time_Now w) /\
   (maxDuration < t - time_Now w -> d = maxDuration)) /\
  (t < time_Now w ->
   d < 0 /\
   (minDuration <= t - time_Now w -> d = t - time_Now w) /\
   (t - time_Now w < minDuration -> d = minDuration)).
Proof.
  intros Hexp d. subst d. rewrite (ttl_expiry_value _ _ _ _ Hexp).
  unfold time_Until.
  destruct (time_Sub_sign t (time_Now w)) as [Hpos Hneg].
  destruct (time_Sub_saturates t (time_Now w)) as [Hmax Hmin].
  split; [reflexivity|]. split; intros Hlt.
  - split; [auto|]. split; [|exact Hmax]. intros Hle. apply time_Sub_exact.
    unfold minDuration. lia.
  - split; [auto|]. split; [|exact Hmin]. intros Hle. apply time_Sub_exact.
    unfold maxDuration. lia.
Qed.

(** C8. When the path does not exist, [ttl] returns zero after the single
    call of [os.Stat]: the file is not read, no lookup is attempted, and
    the client is left as it was. *)
Theorem ttl_missing_path (w : World) (p : string) (s : St) :
  os_IsNotExist (os_Stat w p) = true ->
  ttl time_Parse w p s =
    (Returned 0, {| client := client s; trace := trace s ++ [EStat p] |}) /\
  (forall ext, trace (snd (ttl time_Parse w p s)) = trace s ++ ext ->
     existsb is_EReadFile ext = false /\ existsb is_ELookupSelf ext = false).
Proof.
  intros Hne.
  assert (Heq : ttl time_Parse w p s =
            (Returned 0,
             {| client := client s; trace := trace s ++ [EStat p] |})).
  { ttl_run. rewrite Hne. reflexivity. }
  split; [exact Heq|].
  intros ext Hext. rewrite Heq in Hext. simpl in Hext.
  apply app_inv_head in Hext. subst ext. split; reflexivity.
Qed.

(** C10. When the token file exists and is readable, [ttl] leaves the
    client with the bytes of the file as its token, unchanged, on every
    path that follows (also those that return zero), and the address of
    the client is what it was. *)
Theorem ttl_sets_token_verbatim (w : World) (p : string) (s : St)
    (tokenData : list byte) :
  os_Stat w p = None ->
  os_ReadFile w p = inr tokenData ->
  let c' := client (snd (ttl time_Parse w p s)) in
  token c' = String.string_of_list_byte tokenData /\
  String.list_byte_of_string (token c') = tokenData /\
  address c' = address (client s).
Proof.
  intros Hst Hrd c'.
  assert (Htok : token c' = String.string_of_list_byte tokenData).
  { subst c'. ttl_run. rewrite Hst. simpl. rewrite Hrd. simpl.
    repeat case_match; reflexivity. }
  split; [exact Htok|]. split.
  - rewrite Htok. apply String.list_byte_of_string_of_list_byte.
  - apply ttl_address.
Qed.

End EvaluatorFacts.

(** ** The supervised login: theorems *)

Lemma enter_Inv (t0 : Time) (s0 : St) : Inv t0 (oidcLogin_enter None t0 s0).
Proof.
  unfold Inv, timer_for. simpl. split; [discriminate|].
  split; [eexists; split; reflexivity|].
  split; [eexists; split; reflexivity|]. exact I.
Qed.

Lemma Timer_Stop_inert (t : Timer) : status (Timer_Stop t) <> Armed.
Proof. unfold Timer_Stop. destruct t as [d []]; simpl; discriminate. Qed.

Lemma Timer_Stop_deadline (t : Timer) : deadline (Timer_Stop t) = deadline t.
Proof. unfold Timer_Stop. destruct t as [d []]; reflexivity. Qed.

Lemma step_Inv (t0 : Time) (s s' : Sup) (ev : Event) :
  step s ev = Some s' -> Inv t0 s -> Inv t0 s'.
Proof.
  destruct s as [clk pr wt dn tt tf kt kf p [c tr]].
  unfold Inv, wait_done, timer_stopped, timer_inert, timer_for.
  intros Hstep (Hpr & Htt & Hkt & Hpc).
  destruct ev; simpl in *.
  - (* Tick *)
    destruct (0 <? d); simplify_eq/=. naive_solver.
  - (* ProcExit *)
    destruct pr; simplify_eq/=.
    split; [discriminate|]. split; [assumption|]. split; [assumption|].
    repeat case_match; naive_solver.
  - (* WaitReturn *)
    destruct pr; try discriminate. destruct wt; simplify_eq/=.
    split; [discriminate|]. split; [assumption|]. split; [assumption|].
    repeat case_match; naive_solver.
  - (* TermFire *)
    destruct tt as [t|]; try discriminate.
    destruct (Timer_due clk t) eqn:Hdue; simplify_eq/=.
    split; [assumption|].
    split; [destruct Htt as (x & ? & ?); simplify_eq; eexists; split; [reflexivity|assumption]|].
    split; [assumption|].
    repeat case_match; simplify_eq/=; try exact I; naive_solver.
  - (* TermRun *)
    destruct tf; simplify_eq/=.
    split; [assumption|]. split; [assumption|]. split; [assumption|].
    repeat case_match; simplify_eq/=; try exact I;
      repeat setoid_rewrite elem_of_app; naive_solver.
  - (* KillFire *)
    destruct kt as [t|]; try discriminate.
    destruct (Timer_due clk t) eqn:Hdue; simplify_eq/=.
    split; [assumption|]. split; [assumption|].
    split; [destruct Hkt as (x & ? & ?); simplify_eq; eexists; split; [reflexivity|assumption]|].
    repeat case_match; simplify_eq/=; try exact I; naive_solver.
  - (* KillRun *)
    destruct kf; simplify_eq/=.
    split; [assumption|]. split; [assumption|]. split; [assumption|].
    repeat case_match; simplify_eq/=; try exact I;
      repeat setoid_rewrite elem_of_app; naive_solver.
  - (* MainStep *)
    unfold main_step in Hstep; simpl in Hstep.
    destruct Htt as (xt & -> & Hdt). destruct Hkt as (xk & -> & Hdk).
    destruct p as [|err|err|[e|]|res]; simpl in *.
    + destruct dn as [err|]; simplify_eq/=.
      split; [assumption|]. split; [eauto|]. split; [eauto|]. auto.
    + simplify_eq/=. destruct Hpc as (Hdn & Hw).
      split; [assumption|].
      split; [eexists; split; [reflexivity|]; rewrite Timer_Stop_deadline; exact Hdt|].
      split; [eauto|].
      split; [assumption|]. split; [assumption|].
      split; [eexists; split; [reflexivity|apply Timer_Stop_inert]|].
      apply elem_of_app. right. apply list_elem_of_singleton. reflexivity.
    + simplify_eq/=. destruct Hpc as (Hdn & Hw & (Hti & Hte)).
      split; [assumption|]. split; [eauto|].
      split; [eexists; split; [reflexivity|]; rewrite Timer_Stop_deadline; exact Hdk|].
      split; [assumption|]. split; [assumption|].
      split; [split; [assumption|apply elem_of_app; left; assumption]|].
      split; [eexists; split; [reflexivity|apply Timer_Stop_inert]|].
      apply elem_of_app. right. apply list_elem_of_singleton. reflexivity.
    + simplify_eq/=. destruct Hpc as (Hdn & Hw & Ht & Hk).
      split; [assumption|]. split; [eauto|]. split; [eauto|].
      exists (Some e). auto.
    + simplify_eq/=. destruct Hpc as (Hdn & Hw & (Hti & Hte) & (Hki & Hke)).
      split; [assumption|]. split; [eauto|]. split; [eauto|].
      exists None. repeat split; try assumption; apply elem_of_app; left; assumption.
    + discriminate.
Qed.

Lemma run_Inv (t0 : Time) (evs : list Event) :
  forall s s', run s evs = Some s' -> Inv t0 s -> Inv t0 s'.
Proof.
  induction evs as [|ev evs IH]; simpl; intros s s' Hrun HI.
  - congruence.
  - destruct (step s ev) as [s1|] eqn:Hstep; [|discriminate].
    eapply IH; [exact Hrun|]. eapply step_Inv; eassumption.
Qed.

Lemma started_Inv (t0 : Time) (s0 : St) (evs : list Event) (s : Sup) :
  run (oidcLogin_enter None t0 s0) evs = Some s -> Inv t0 s.
Proof.
  intros Hrun. eapply run_Inv; [exact Hrun|apply enter_Inv].
Qed.

Lemma login_result_nil (ws : WaitStatus) :
  login_result (cmd_Wait ws) = None <-> ws = WExited 0.
Proof.
  destruct ws as [[| |]|]; simpl; split; intros H; congruence.
Qed.

Lemma timer_function_frame (s s' : Sup) (r : option error) :
  step s (TermRun r) = Some s' \/ step s (KillRun r) = Some s' ->
  pc s' = pc s /\ done s' = done s /\ proc s' = proc s /\
  waited s' = waited s /\ client (st s') = client (st s) /\
  exists entries,
    trace (st s') = trace (st s) ++ entries /\
    forall e, r = Some e -> exists format, ELog format [AErr e] ∈ entries.
Proof.
  intros [H|H]; simpl in H; repeat case_match; simplify_eq/=;
    (repeat split; eexists; split; [reflexivity|]);
    intros e' He; simplify_eq; eexists;
    apply list_elem_of_In; simpl; eauto.
Qed.

(** Progress: once the child has ended, the wait and the four remaining
    statements of the caller can always run, and they end the call. *)
Lemma returns_once_child_exits (s : Sup) (ws : WaitStatus) :
  pc s = PRecv -> proc s = Exited ws -> waited s = false ->
  exists s',
    run s [WaitReturn; MainStep; MainStep; MainStep; MainStep] = Some s' /\
    pc s' = PReturned (login_result (cmd_Wait ws)).
Proof.
  destruct s as [clk pr wt dn tt tf kt kf p [c tr]]. simpl.
  intros -> -> ->. simpl. unfold main_step. simpl.
  destruct (cmd_Wait ws) as [e|]; simpl; eexists; split; reflexivity.
Qed.

Lemma fire_enabled (now : Time) (t : Timer) :
  Timer_due now t = true <-> status t = Armed /\ deadline t <= now.
Proof.
  unfold Timer_due. destruct (status t); rewrite ?Z.leb_le; intuition congruence.
Qed.


(** C5. In a call whose child was started, when the caller has returned the
    child has ended, [cmd.Wait] has returned, [Stop] has been called on
    both timers, and neither timer can expire any more.  [Stop] on a timer
    that has fired changes nothing. *)
Theorem oidcLogin_returns_after_exit (t0 : Time) (s0 : St)
    (evs : list Event) (s : Sup) (res : option error) :
  run (oidcLogin_enter None t0 s0) evs = Some s ->
  pc s = PReturned res ->
  (exists ws, proc s = Exited ws) /\
  waited s = true /\
  timer_stopped TermTimer (termTimer s) s /\
  timer_stopped KillTimer (killTimer s) s /\
  step s TermFire = None /\ step s KillFire = None /\
  (forall t, status t = Fired -> Timer_Stop t = t).
Proof.
  intros Hrun Hpc. apply started_Inv in Hrun.
  destruct Hrun as (_ & _ & _ & HI). rewrite Hpc in HI.
  destruct HI as (err & _ & _ & (ws & Hp & Hw & _) & Ht & Hk).
  split; [eauto|]. split; [exact Hw|]. split; [exact Ht|]. split; [exact Hk|].
  destruct Ht as ((xt & Hxt & Hst) & _). destruct Hk as ((xk & Hxk & Hsk) & _).
  simpl. rewrite Hxt, Hxk. unfold Timer_due.
  split; [destruct (status xt); congruence|].
  split; [destruct (status xk); congruence|].
  intros t Hf. unfold Timer_Stop. rewrite Hf. reflexivity.
Qed.

Lemma failed_start_step (s s' : Sup) (ev : Event) (res : option error) :
  step s ev = Some s' -> never_started res s ->
  never_started res s' /\ st s' = st s.
Proof.
  unfold never_started. intros Hstep (Hpc & Hp & Ht & Hk & Htf & Hkf).
  destruct ev; simpl in Hstep; unfold main_step in Hstep;
    rewrite ?Hpc, ?Hp, ?Ht, ?Hk, ?Htf, ?Hkf in Hstep; try discriminate.
  destruct (0 <? d); simplify_eq/=. auto 10.
Qed.

Lemma failed_start_run (res : option error) (evs : list Event) :
  forall s s', run s evs = Some s' -> never_started res s ->
  never_started res s' /\ st s' = st s.
Proof.
  induction evs as [|ev evs IH]; simpl; intros s s' Hrun Hns.
  - simplify_eq. auto.
  - destruct (step s ev) as [s1|] eqn:Hstep; [|discriminate].
    destruct (failed_start_step _ _ _ _ Hstep Hns) as (Hns1 & Hst1).
    destruct (IH _ _ Hrun Hns1) as (? & Hst').
    rewrite Hst', Hst1. auto.
Qed.

(** C6. When [cmd.Start] fails with [e], the call has returned the error of
    line 105 around [e] before any event: no child, no timer.  Whatever
    happens afterwards, the timers never come to exist and the only effect
    of the call is the start attempt. *)
Theorem oidcLogin_start_failure (e : error) (t0 : Time) (s0 : St)
    (evs : list Event) (s : Sup) :
  run (oidcLogin_enter (Some e) t0 s0) evs = Some s ->
  oidcLogin {| start_result := Some e; start_time := t0; schedule := [] |} s0 =
    Some (Some (Errorf "error starting vault login: %v" e),
          {| client := client s0;
             trace := trace s0 ++ [EStart (login_argv (client s0))] |}) /\
  pc s = PReturned (Some (Errorf "error starting vault login: %v" e)) /\
  proc s = NotStarted /\
  termTimer s = None /\ killTimer s = None /\
  step s TermFire = None /\ step s KillFire = None /\
  (forall r, step s (TermRun r) = None /\ step s (KillRun r) = None) /\
  trace (st s) = trace s0 ++ [EStart (login_argv (client s0))] /\
  existsb is_EAfterFunc [EStart (login_argv (client s0))] = false.
Proof.
  intros Hrun. split; [reflexivity|].
  eapply failed_start_run in Hrun; [|repeat split; reflexivity].
  destruct Hrun as ((Hpc & Hp & Ht & Hk & Htf & Hkf) & Hst).
  split; [exact Hpc|]. split; [exact Hp|]. split; [exact Ht|].
  split; [exact Hk|]. simpl. rewrite Ht, Hk, Htf, Hkf, Hst. simpl. auto 10.
Qed.

(** ** The sequencing of [main]: theorems *)

Section OrchestratorFacts.

Variable time_Parse : string -> string -> error + Time.
Variable time_ParseDuration : string -> error + Duration.


End OrchestratorFacts.

(** ** Further properties of the freshness evaluation *)

Ltac trace_split :=
  rewrite <- ?app_assoc; unfold effects_since; rewrite ?drop_app_length; simpl.

Section EvaluatorMore.

Variable time_Parse : string -> string -> error + Time.

Lemma ttl_effects_spec (w : World) (p : string) (s : St) :
  trace (snd (ttl time_Parse w p s)) = trace s ++ ttl_effects time_Parse w p s.
Proof.
  unfold ttl_effects. ttl_run.
  repeat case_match; simpl; trace_split; reflexivity.
Qed.

Lemma ttl_effects_kind (w : World) (p : string) (s : St) :
  forallb ttl_kind (ttl_effects time_Parse w p s) = true.
Proof.
  unfold ttl_effects. ttl_run.
  repeat case_match; simpl; trace_split; reflexivity.
Qed.

Lemma time_Sub_zero (t u : Time) : time_Sub t u = 0 <-> t = u.
Proof.
  unfold time_Sub, minDuration, maxDuration. repeat case_match; lia.
Qed.

Lemma ttl_expiry_unique (w : World) (p : string) (c : Client) (t t' : Time) :
  ttl_expiry time_Parse w p c t -> ttl_expiry time_Parse w p c t' -> t = t'.
Proof.
  intros (td & sec & str & H1 & H2 & H3 & H4 & H5)
         (td' & sec' & str' & H1' & H2' & H3' & H4' & H5').
  rewrite H2 in H2'. injection H2' as <-.
  rewrite H3 in H3'. injection H3' as <-.
  rewrite H4 in H4'. injection H4' as <-.
  rewrite H5 in H5'. injection H5' as <-. reflexivity.
Qed.

Lemma ttl_outcome (w : World) (p : string) (s : St) :
  (ttl_failure time_Parse w p (client s) /\
   fst (ttl time_Parse w p s) = Returned 0) \/
  (exists t, ttl_expiry time_Parse w p (client s) t /\
             fst (ttl time_Parse w p s) = Returned (time_Sub t (time_Now w))) \/
  (ttl_nil_secret w p (client s) /\
   fst (ttl time_Parse w p s) = Panicked nil_dereference).
Proof.
  destruct (ttl_failure_or_expiry time_Parse w p (client s)) as [Hf|[[t Ht]|Hn]].
  - left. split; [exact Hf|]. apply ttl_failure_is_zero. exact Hf.
  - right. left. exists t. split; [exact Ht|].
    apply (ttl_expiry_value time_Parse w p s t Ht).
  - right. right. split; [exact Hn|]. apply ttl_nil_secret_value. exact Hn.
Qed.

Lemma ttl_failure_not_expiry (w : World) (p : string) (c : Client) (t : Time) :
  ttl_failure time_Parse w p c -> ttl_expiry time_Parse w p c t -> False.
Proof.
  intros Hf (td & sec & str & H1 & H2 & H3 & H4 & H5).
  destruct Hf as
    [Hne | e Hst | e Hst Hrd | td' e Hst Hrd Hlk | td' sec' Hst Hrd Hlk Hd
    | td' sec' v Hst Hrd Hlk Hd Hv | td' sec' str' e Hst Hrd Hlk Hd Hp];
    first [ rewrite H1 in Hne; discriminate
          | apply (Hv str); congruence
          | congruence ].
Qed.

(** X1. [ttl] returns zero in two situations only: a step has failed, or
    the expiry is the very instant of the call. *)
Theorem ttl_zero_iff (w : World) (p : string) (s : St) :
  fst (ttl time_Parse w p s) = Returned 0 <->
  ttl_failure time_Parse w p (client s) \/
  ttl_expiry time_Parse w p (client s) (time_Now w).
Proof.
  destruct (ttl_outcome w p s) as [[Hf H0]|[(t & Ht & Hv)|[Hn Hv]]]; split.
  - auto.
  - intros _. exact H0.
  - rewrite Hv. intros [= Hz]. apply (proj1 (time_Sub_zero _ _)) in Hz.
    subst t. auto.
  - intros [Hf|Hnow].
    + exfalso. eapply ttl_failure_not_expiry; eassumption.
    + rewrite Hv. f_equal. apply (proj2 (time_Sub_zero _ _)).
      eapply ttl_expiry_unique; eassumption.
  - rewrite Hv. discriminate.
  - intros [Hf|Hnow]; exfalso;
      destruct Hn as (td & H1 & H2 & H3).
    + destruct Hf as
        [Hne | e Hst | e Hst Hrd | td' e Hst Hrd Hlk | td' sec' Hst Hrd Hlk Hd
        | td' sec' v Hst Hrd Hlk Hd Hv' | td' sec' str' e Hst Hrd Hlk Hd Hp];
        first [ rewrite H1 in Hne; discriminate | congruence ].
    + destruct Hnow as (td' & sec & str & H1' & H2' & H3' & _). congruence.
Qed.

(** X3. The token that the client holds before the call plays no part: two
    calls of [ttl] in the same world with clients of the same address
    return the same duration and have the same effects. *)
Theorem ttl_ignores_prior_token (w : World) (p : string) (s1 s2 : St) :
  address (client s1) = address (client s2) ->
  fst (ttl time_Parse w p s1) = fst (ttl time_Parse w p s2) /\
  ttl_effects time_Parse w p s1 = ttl_effects time_Parse w p s2.
Proof.
  destruct s1 as [[a1 k1] tr1], s2 as [[a2 k2] tr2]. simpl.
  intros ->. unfold ttl_effects. ttl_run.
  repeat (case_match; simpl in *); simplify_eq; trace_split; split; reflexivity.
Qed.

(** X4. When the token file cannot be accessed or cannot be read, [ttl]
    returns zero, leaves the client as it was and makes no lookup. *)
Theorem ttl_unreadable_leaves_client (w : World) (p : string) (s : St) :
  (exists e, os_Stat w p = Some e) \/ (exists e, os_ReadFile w p = inl e) ->
  fst (ttl time_Parse w p s) = Returned 0 /\
  client (snd (ttl time_Parse w p s)) = client s /\
  existsb is_ELookupSelf (ttl_effects time_Parse w p s) = false.
Proof.
  unfold ttl_effects. intros [[e He]|[e He]]; ttl_run; rewrite He;
    repeat case_match; simpl; trace_split; repeat split; reflexivity.
Qed.

(** X5. One call of [ttl] calls [os.Stat] once, first of all, reads the
    file at most once and makes at most one lookup; a lookup is made with
    the bytes just read from the file as the token of the client. *)
Theorem ttl_single_attempt (w : World) (p : string) (s : St) :
  (exists rest, ttl_effects time_Parse w p s = EStat p :: rest /\
                count is_EStat rest = 0%nat) /\
  (count is_EReadFile (ttl_effects time_Parse w p s) <= 1)%nat /\
  (count is_ELookupSelf (ttl_effects time_Parse w p s) <= 1)%nat /\
  (forall c, In (ELookupSelf c) (ttl_effects time_Parse w p s) ->
     exists tokenData,
       os_Stat w p = None /\ os_ReadFile w p = inr tokenData /\
       c = Client_SetToken (client s) (String.string_of_list_byte tokenData)).
Proof.
  unfold ttl_effects, count. ttl_run.
  repeat case_match; simpl; trace_split;
    (split; [eexists; split; reflexivity|]);
    (split; [lia|]); (split; [lia|]);
    intros c Hin; simpl in Hin; intuition (try discriminate);
    simplify_eq; eexists; repeat split; reflexivity.
Qed.

(** X6. [ttl] writes at most one log line, and none in exactly three
    cases: the path does not exist, or the expiry was obtained, or the
    lookup returned a nil secret (on which [ttl] panics). *)
Theorem ttl_logs_every_other_failure (w : World) (p : string) (s : St) :
  (count is_ELog (ttl_effects time_Parse w p s) <= 1)%nat /\
  (count is_ELog (ttl_effects time_Parse w p s) = 0%nat <->
   os_IsNotExist (os_Stat w p) = true \/
   (exists t, ttl_expiry time_Parse w p (client s) t) \/
   ttl_nil_secret w p (client s)).
Proof.
  unfold ttl_effects, count, ttl_expiry, ttl_nil_secret. ttl_run.
  destruct (os_Stat w p) as [e|] eqn:Hst; simpl.
  { destruct e; simpl; trace_split; (split; [lia|]); split;
      first [intros _; left; reflexivity | intros _; reflexivity | discriminate
            | intros [?|[(? & ? & ? & ? & ? & _)|(? & ? & _)]]; discriminate]. }
  destruct (os_ReadFile w p) as [e|td] eqn:Hrd; simpl.
  { trace_split. split; [lia|]. split; [discriminate|].
    intros [?|[(? & ? & ? & ? & _ & ? & _)|(? & _ & ? & _)]]; discriminate. }
  destruct (LookupSelf w _) as [e|[sec|]] eqn:Hlk; simpl.
  { trace_split. split; [lia|]. split; [discriminate|].
    intros [?|[(? & td' & ? & ? & _ & Hrd' & Hlk' & _)|(td' & _ & Hrd' & Hlk')]];
      [discriminate| |];
      simplify_eq; unfold Client_SetToken in Hlk'; congruence. }
  2:{ trace_split. split; [lia|]. split; [|reflexivity].
      intros _. right. right. exists td. auto. }
  assert (Hnn : ~ exists td',
                    None = None (A:=error) /\ inr td = inr td' (A:=error) /\
                    LookupSelf w (Client_SetToken (client s)
                                    (String.string_of_list_byte td')) = inr None).
  { intros (td' & _ & Htd & Hlk'). simplify_eq.
    unfold Client_SetToken in Hlk'. congruence. }
  destruct (Data sec !! "expire_time"%string) as [v|] eqn:Hd; simpl.
  2:{ trace_split. split; [lia|]. split; [discriminate|].
      intros [?|[(? & td' & sec' & ? & _ & Hrd' & Hlk' & Hd' & _)|Hn]];
        [discriminate| |destruct (Hnn Hn)].
      simplify_eq. unfold Client_SetToken in Hlk'. congruence. }
  assert (Hns : (forall str, v <> JString str) ->
                ~ exists t td' sec' str,
                    None = None (A:=error) /\ inr td = inr td' (A:=error) /\
                    LookupSelf w (Client_SetToken (client s)
                                    (String.string_of_list_byte td')) =
                      inr (Some sec') /\
                    Data sec' !! "expire_time"%string = Some (JString str) /\
                    time_Parse RFC3339Nano str = inr t).
  { intros Hv (t & td' & sec' & str & _ & Htd & Hlk' & Hd' & _).
    simplify_eq. unfold Client_SetToken in Hlk'.
    apply (Hv str). congruence. }
  destruct v as [|b|n|str|l|l]; simpl;
    try (trace_split; split; [lia|]; split; [discriminate|];
         intros [?|[Hex|Hn]]; [discriminate| |destruct (Hnn Hn)];
         exfalso; revert Hex; apply Hns; discriminate).
  destruct (time_Parse RFC3339Nano str) as [e|t] eqn:Hp; simpl.
  { trace_split. split; [lia|]. split; [discriminate|].
    intros [?|[(t & td' & sec' & str' & _ & Htd & Hlk' & Hd' & Hp')|Hn]];
      [discriminate| |destruct (Hnn Hn)].
    simplify_eq. unfold Client_SetToken in Hlk'. congruence. }
  trace_split. split; [lia|]. split; [|reflexivity].
  intros _. right. left. exists t, td, sec, str. auto.
Qed.

End EvaluatorMore.

(** ** Further properties of the supervised login *)

Lemma count_app (f : Effect -> bool) (l k : list Effect) :
  count f (l ++ k) = (count f l + count f k)%nat.
Proof. unfold count. rewrite List.filter_app, length_app. reflexivity. Qed.

Lemma enter_Ledger (t0 : Time) (s0 : St) :
  Ledger t0 (trace s0) (oidcLogin_enter None t0 s0).
Proof.
  unfold Ledger, timer_tracks. simpl. rewrite !count_app. simpl.
  split; [unfold count; simpl; lia|]. split; [unfold count; simpl; lia|].
  split; [eexists; split; [reflexivity|]; simpl;
          split; [reflexivity|]; split; [split; [discriminate|reflexivity]|discriminate]|].
  split; [eexists; split; [reflexivity|]; simpl;
          split; [reflexivity|]; split; [split; [discriminate|reflexivity]|discriminate]|].
  split; [auto|discriminate].
Qed.

Lemma Timer_Stop_fired (t : Timer) :
  status (Timer_Stop t) = Fired <-> status t = Fired.
Proof. unfold Timer_Stop. destruct t as [d []]; simpl; split; congruence. Qed.

Lemma timer_tracks_stop (t0 : Time) (d : Duration) (t : option Timer) (f : Fn)
    (clk : Time) :
  timer_tracks t0 d t f clk -> timer_tracks t0 d (Timer_Stop <$> t) f clk.
Proof.
  intros (x & -> & Hd & Hf & Hc). exists (Timer_Stop x). simpl.
  rewrite Timer_Stop_deadline, Timer_Stop_fired. auto.
Qed.

Lemma timer_tracks_tick (t0 : Time) (d : Duration) (t : option Timer) (f : Fn)
    (clk clk' : Time) :
  clk <= clk' -> timer_tracks t0 d t f clk -> timer_tracks t0 d t f clk'.
Proof.
  intros Hle (x & -> & Hd & Hf & Hc). exists x.
  repeat split; try tauto. intros Hfired. specialize (Hc Hfired). lia.
Qed.

Lemma timer_tracks_fire (t0 : Time) (d : Duration) (x : Timer) (f : Fn)
    (clk : Time) :
  Timer_due clk x = true ->
  timer_tracks t0 d (Some x) f clk ->
  timer_tracks t0 d (Some (Timer_fired x)) FnStarted clk.
Proof.
  intros Hdue (y & [= <-] & Hd & Hf & Hc). exists (Timer_fired x). simpl.
  apply fire_enabled in Hdue as [_ Hle].
  split; [reflexivity|]. split; [exact Hd|]. split.
  - split; [discriminate|]. intros H. exfalso. apply H. reflexivity.
  - intros _. exact Hle.
Qed.

Lemma timer_tracks_ran (t0 : Time) (d : Duration) (t : option Timer)
    (clk : Time) :
  timer_tracks t0 d t FnStarted clk -> timer_tracks t0 d t FnDone clk.
Proof.
  intros (x & -> & Hd & Hf & Hc). exists x.
  repeat split; try assumption; try discriminate.
  intros Hnf. exfalso. destruct Hf as [_ Hf]. specialize (Hf Hnf). discriminate.
Qed.

Lemma step_Ledger (t0 : Time) (base : list Effect) (s s' : Sup) (ev : Event) :
  step s ev = Some s' -> Ledger t0 base s -> Ledger t0 base s'.
Proof.
  destruct s as [clk pr wt dn tt tf kt kf p [c tr]].
  unfold Ledger. simpl.
  intros Hstep (Hct & Hck & Htt & Hkt & Hw0 & Hw1).
  destruct ev; simpl in Hstep.
  - (* Tick *)
    destruct (0 <? d) eqn:Hd; simplify_eq/=. apply Z.ltb_lt in Hd.
    repeat split; try tauto;
      (eapply timer_tracks_tick; [|eassumption]; lia).
  - (* ProcExit *)
    destruct pr; simplify_eq/=. tauto.
  - (* WaitReturn *)
    destruct pr; try discriminate. destruct wt; simplify_eq/=.
    repeat split; try assumption; try discriminate. eauto.
  - (* TermFire *)
    destruct tt as [t|]; try discriminate.
    destruct (Timer_due clk t) eqn:Hdue; simplify_eq/=.
    assert (Hidle : tf = FnIdle).
    { destruct Htt as (y & [= <-] & _ & Hf & _). apply Hf.
      apply fire_enabled in Hdue as [Ha _]. congruence. }
    subst tf. repeat split; try tauto.
    eapply timer_tracks_fire; eassumption.
  - (* TermRun *)
    destruct tf; simplify_eq/=. rewrite !count_app.
    repeat split; try tauto.
    + rewrite Hct. destruct r; unfold count; simpl; lia.
    + rewrite Hck. destruct r; unfold count; simpl; lia.
    + apply timer_tracks_ran. assumption.
  - (* KillFire *)
    destruct kt as [t|]; try discriminate.
    destruct (Timer_due clk t) eqn:Hdue; simplify_eq/=.
    assert (Hidle : kf = FnIdle).
    { destruct Hkt as (y & [= <-] & _ & Hf & _). apply Hf.
      apply fire_enabled in Hdue as [Ha _]. congruence. }
    subst kf. repeat split; try tauto.
    eapply timer_tracks_fire; eassumption.
  - (* KillRun *)
    destruct kf; simplify_eq/=. rewrite !count_app.
    repeat split; try tauto.
    + rewrite Hct. destruct r; unfold count; simpl; lia.
    + rewrite Hck. destruct r; unfold count; simpl; lia.
    + apply timer_tracks_ran. assumption.
  - (* MainStep *)
    unfold main_step in Hstep; simpl in Hstep.
    destruct p as [|err|err|[e|]|res]; simpl in *.
    + destruct dn as [err|]; simplify_eq/=.
      destruct wt; [|destruct (Hw0 eq_refl); discriminate].
      repeat split; try assumption; discriminate.
    + simplify_eq/=. rewrite !count_app.
      destruct wt; [|destruct (Hw0 eq_refl); discriminate].
      repeat split; try discriminate;
        [rewrite Hct; unfold count; simpl; lia
        |rewrite Hck; unfold count; simpl; lia
        |apply timer_tracks_stop; assumption
        |assumption].
    + simplify_eq/=. rewrite !count_app.
      destruct wt; [|destruct (Hw0 eq_refl); discriminate].
      repeat split; try discriminate;
        [rewrite Hct; unfold count; simpl; lia
        |rewrite Hck; unfold count; simpl; lia
        |assumption
        |apply timer_tracks_stop; assumption].
    + simplify_eq/=.
      destruct wt; [|destruct (Hw0 eq_refl); discriminate].
      repeat split; try assumption; discriminate.
    + simplify_eq/=. rewrite !count_app.
      destruct wt; [|destruct (Hw0 eq_refl); discriminate].
      repeat split; try discriminate;
        [rewrite Hct; unfold count; simpl; lia
        |rewrite Hck; unfold count; simpl; lia
        |assumption
        |assumption].
    + discriminate.
Qed.

Lemma run_Ledger (t0 : Time) (base : list Effect) (evs : list Event) :
  forall s s', run s evs = Some s' -> Ledger t0 base s -> Ledger t0 base s'.
Proof.
  induction evs as [|ev evs IH]; simpl; intros s s' Hrun HL.
  - congruence.
  - destruct (step s ev) as [s1|] eqn:Hstep; [|discriminate].
    eapply IH; [exact Hrun|]. eapply step_Ledger; eassumption.
Qed.

Lemma started_Ledger (t0 : Time) (s0 : St) (evs : list Event) (s : Sup) :
  run (oidcLogin_enter None t0 s0) evs = Some s -> Ledger t0 (trace s0) s.
Proof.
  intros Hrun. eapply run_Ledger; [exact Hrun|apply enter_Ledger].
Qed.

Lemma step_quiet (s s' : Sup) (ev : Event) :
  step s ev = Some s' ->
  client (st s') = client (st s) /\
  exists ext,
    trace (st s') = trace (st s) ++ ext /\ forallb supervision_kind ext = true.
Proof.
  destruct s as [clk pr wt dn tt tf kt kf p [c tr]].
  destruct ev; simpl; unfold main_step; simpl; intros Hstep;
    repeat case_match; simplify_eq/=;
    (split; [reflexivity|]);
    first [ exists []; rewrite app_nil_r; split; reflexivity
          | eexists; split; [reflexivity|];
            unfold termFunc, killFunc; repeat case_match; reflexivity ].
Qed.

Lemma run_quiet (evs : list Event) :
  forall s s', run s evs = Some s' ->
  client (st s') = client (st s) /\
  exists ext,
    trace (st s') = trace (st s) ++ ext /\ forallb supervision_kind ext = true.
Proof.
  induction evs as [|ev evs IH]; simpl; intros s s' Hrun.
  - simplify_eq. split; [reflexivity|]. exists []. rewrite app_nil_r. auto.
  - destruct (step s ev) as [s1|] eqn:Hstep; [|discriminate].
    destruct (step_quiet _ _ _ Hstep) as (Hc1 & e1 & He1 & Hq1).
    destruct (IH _ _ Hrun) as (Hc2 & e2 & He2 & Hq2).
    split; [congruence|]. exists (e1 ++ e2).
    rewrite He2, He1, <- app_assoc. split; [reflexivity|].
    rewrite forallb_app, Hq1, Hq2. reflexivity.
Qed.

Lemma started_trace (t0 : Time) (s0 : St) (evs : list Event) (s : Sup) :
  run (oidcLogin_enter None t0 s0) evs = Some s ->
  trace (st s) = trace s0 ++ effects_since (trace s0) (trace (st s)).
Proof.
  intros Hrun. destruct (run_quiet _ _ _ Hrun) as (_ & ext & He & _).
  simpl in He. rewrite He, <- app_assoc. unfold effects_since.
  rewrite drop_app_length. reflexivity.
Qed.

Lemma started_counts (t0 : Time) (s0 : St) (evs : list Event) (s : Sup) :
  run (oidcLogin_enter None t0 s0) evs = Some s ->
  count (sends SIGTERM) (effects_since (trace s0) (trace (st s))) = fn_ran (termFn s) /\
  count (sends SIGKILL) (effects_since (trace s0) (trace (st s))) = fn_ran (killFn s).
Proof.
  intros Hrun. pose proof (started_trace _ _ _ _ Hrun) as Htr.
  destruct (started_Ledger _ _ _ _ Hrun) as (Hct & Hck & _).
  rewrite Htr, count_app in Hct, Hck. lia.
Qed.

Lemma fn_ran_fired (t0 : Time) (d : Duration) (t : option Timer) (f : Fn)
    (clk : Time) :
  timer_tracks t0 d t f clk -> (0 < fn_ran f)%nat -> t0 + d <= clk.
Proof.
  intros (x & _ & Hd & Hf & Hc) Hran. rewrite <- Hd. apply Hc.
  destruct (status x) eqn:Hs; try reflexivity; exfalso;
    (assert (Hi : f = FnIdle) by (apply Hf; discriminate));
    subst f; simpl in Hran; lia.
Qed.

(** X7. In a call whose child was started, whenever [cmd.Wait] can
    return, the channel [done] is empty and the caller is at the receive:
    the send of line 110 never finds the channel full. *)
Theorem done_is_empty_at_send (t0 : Time) (s0 : St) (evs : list Event)
    (s : Sup) :
  run (oidcLogin_enter None t0 s0) evs = Some s ->
  is_Some (step s WaitReturn) ->
  done s = None /\ pc s = PRecv.
Proof.
  intros Hrun Hen. destruct (started_Ledger _ _ _ _ Hrun) as (_ & _ & _ & _ & Hw0 & _).
  apply Hw0. simpl in Hen. destruct (proc s); try (destruct Hen; discriminate).
  destruct (waited s); [destruct Hen; discriminate|reflexivity].
Qed.

(** X8. In a call whose child was started at [t0], SIGTERM has been sent
    only if the clock has reached [t0] plus sixty seconds, and SIGKILL only
    if it has reached [t0] plus ninety seconds. *)
Theorem no_signal_before_deadline (t0 : Time) (s0 : St) (evs : list Event)
    (s : Sup) :
  run (oidcLogin_enter None t0 s0) evs = Some s ->
  ((0 < count (sends SIGTERM) (effects_since (trace s0) (trace (st s))))%nat ->
   t0 + 60 * Second <= clock s) /\
  ((0 < count (sends SIGKILL) (effects_since (trace s0) (trace (st s))))%nat ->
   t0 + 90 * Second <= clock s).
Proof.
  intros Hrun. destruct (started_counts _ _ _ _ Hrun) as (Hct & Hck).
  destruct (started_Ledger _ _ _ _ Hrun) as (_ & _ & Htt & Hkt & _).
  rewrite Hct, Hck. split; intros Hpos.
  - change (60 * Second) with (1 * Minute). eapply fn_ran_fired; eassumption.
  - eapply fn_ran_fired; eassumption.
Qed.

(** X9. In a call whose child was started, SIGTERM is sent at most once and
    SIGKILL is sent at most once. *)
Theorem each_signal_at_most_once (t0 : Time) (s0 : St) (evs : list Event)
    (s : Sup) :
  run (oidcLogin_enter None t0 s0) evs = Some s ->
  (count (sends SIGTERM) (effects_since (trace s0) (trace (st s))) <= 1)%nat /\
  (count (sends SIGKILL) (effects_since (trace s0) (trace (st s))) <= 1)%nat.
Proof.
  intros Hrun. destruct (started_counts _ _ _ _ Hrun) as (-> & ->).
  destruct (termFn s), (killFn s); simpl; lia.
Qed.

Lemma stopped_stays (s s' : Sup) (ev : Event) :
  step s ev = Some s' ->
  ((exists t, termTimer s = Some t /\ status t = Stopped) ->
   exists t, termTimer s' = Some t /\ status t = Stopped) /\
  ((exists t, killTimer s = Some t /\ status t = Stopped) ->
   exists t, killTimer s' = Some t /\ status t = Stopped).
Proof.
  destruct s as [clk pr wt dn tt tf kt kf p [c tr]].
  destruct ev; simpl; unfold main_step; simpl; intros Hstep;
    split; intros (t & -> & Hs);
    repeat case_match; simplify_eq/=;
    try (eexists; split; [reflexivity|assumption]);
    try (unfold Timer_due in *; rewrite Hs in *; discriminate);
    try (eexists; split; [reflexivity|]; unfold Timer_Stop; rewrite Hs; assumption).
Qed.

Lemma stopped_stays_run (evs : list Event) :
  forall s s', run s evs = Some s' ->
  ((exists t, termTimer s = Some t /\ status t = Stopped) ->
   exists t, termTimer s' = Some t /\ status t = Stopped) /\
  ((exists t, killTimer s = Some t /\ status t = Stopped) ->
   exists t, killTimer s' = Some t /\ status t = Stopped).
Proof.
  induction evs as [|ev evs IH]; simpl; intros s s' Hrun.
  - simplify_eq. auto.
  - destruct (step s ev) as [s1|] eqn:Hstep; [|discriminate].
    destruct (stopped_stays _ _ _ Hstep) as (H1 & H2).
    destruct (IH _ _ Hrun) as (H3 & H4). auto.
Qed.

Lemma run_app (a b : list Event) :
  forall s, run s (a ++ b) =
            match run s a with Some s1 => run s1 b | None => None end.
Proof.
  induction a as [|ev a IH]; simpl; intros s; [reflexivity|].
  destruct (step s ev); [apply IH|reflexivity].
Qed.

Lemma stopped_idle (t0 : Time) (d : Duration) (t : option Timer) (f : Fn)
    (clk : Time) :
  timer_tracks t0 d t f clk ->
  (exists x, t = Some x /\ status x = Stopped) -> fn_ran f = 0%nat.
Proof.
  intros (x & -> & _ & Hf & _) (y & [= <-] & Hs).
  assert (Hi : f = FnIdle) by (apply Hf; congruence).
  subst f. reflexivity.
Qed.

(** X10. When a call whose child was started at [t0] has returned before
    [t0] plus sixty seconds, no SIGTERM and no SIGKILL has been sent, and
    none is sent whatever happens afterwards. *)
Theorem early_return_never_signals (t0 : Time) (s0 : St) (evs evs' : list Event)
    (s s' : Sup) (res : option error) :
  run (oidcLogin_enter None t0 s0) evs = Some s ->
  pc s = PReturned res ->
  clock s < t0 + 60 * Second ->
  run s evs' = Some s' ->
  count (sends SIGTERM) (effects_since (trace s0) (trace (st s'))) = 0%nat /\
  count (sends SIGKILL) (effects_since (trace s0) (trace (st s'))) = 0%nat.
Proof.
  intros Hrun Hpc Hclk Hrun'.
  pose proof (started_Inv _ _ _ _ Hrun) as (_ & _ & _ & HI). rewrite Hpc in HI.
  destruct HI as (err & _ & _ & _ & ((xt & Hxt & Hat) & _) & ((xk & Hxk & Hak) & _)).
  destruct (started_Ledger _ _ _ _ Hrun) as (_ & _ & Htt & Hkt & _).
  assert (Hst : exists t, termTimer s = Some t /\ status t = Stopped).
  { destruct Htt as (y & Hy & Hd & _ & Hc). rewrite Hxt in Hy. injection Hy as <-.
    exists xt. split; [exact Hxt|]. destruct (status xt) eqn:E; try congruence.
    specialize (Hc eq_refl). change (1 * Minute) with (60 * Second) in Hd. lia. }
  assert (Hsk : exists t, killTimer s = Some t /\ status t = Stopped).
  { destruct Hkt as (y & Hy & Hd & _ & Hc). rewrite Hxk in Hy. injection Hy as <-.
    exists xk. split; [exact Hxk|]. destruct (status xk) eqn:E; try congruence.
    specialize (Hc eq_refl). unfold Second, Millisecond, Microsecond, Nanosecond in *.
    lia. }
  destruct (stopped_stays_run _ _ _ Hrun') as (Ht' & Hk').
  specialize (Ht' Hst). specialize (Hk' Hsk).
  assert (Hall : run (oidcLogin_enter None t0 s0) (evs ++ evs') = Some s').
  { rewrite run_app, Hrun. exact Hrun'. }
  destruct (started_counts _ _ _ _ Hall) as (-> & ->).
  destruct (started_Ledger _ _ _ _ Hall) as (_ & _ & Htt' & Hkt' & _).
  split; eapply stopped_idle; eassumption.
Qed.

Lemma ends_within_five (t0 : Time) (s0 : St) (evs : list Event)
    (s : Sup) (ws : WaitStatus) :
  run (oidcLogin_enter None t0 s0) evs = Some s ->
  proc s = Exited ws ->
  exists evs' s',
    (length evs' <= 5)%nat /\
    run s evs' = Some s' /\
    pc s' = PReturned (login_result (cmd_Wait ws)).
Proof.
  intros Hrun Hp.
  pose proof (started_Inv _ _ _ _ Hrun) as (_ & _ & _ & HI).
  destruct (started_Ledger _ _ _ _ Hrun) as (_ & _ & _ & _ & Hw0 & Hw1).
  destruct s as [clk pr wt dn tt tf kt kf p [c tr]]. simpl in *. subst pr.
  unfold wait_done in HI. simpl in HI.
  destruct p as [|err|err|err|res].
  - destruct wt.
    + destruct (Hw1 eq_refl eq_refl) as [err ->].
      destruct HI as (ws' & [= <-] & _ & ->).
      exists [MainStep; MainStep; MainStep; MainStep]. simpl. unfold main_step. simpl.
      destruct (cmd_Wait ws); simpl; eexists; repeat split; try reflexivity; lia.
    + destruct (Hw0 eq_refl) as [-> _].
      exists [WaitReturn; MainStep; MainStep; MainStep; MainStep]. simpl.
      unfold main_step. simpl.
      destruct (cmd_Wait ws); simpl; eexists; repeat split; try reflexivity; lia.
  - destruct HI as (_ & ws' & [= <-] & _ & ->).
    exists [MainStep; MainStep; MainStep]. simpl. unfold main_step. simpl.
    destruct (cmd_Wait ws); simpl; eexists; repeat split; try reflexivity; lia.
  - destruct HI as (_ & (ws' & [= <-] & _ & ->) & _).
    exists [MainStep; MainStep]. simpl. unfold main_step. simpl.
    destruct (cmd_Wait ws); simpl; eexists; repeat split; try reflexivity; lia.
  - destruct HI as (_ & (ws' & [= <-] & _ & ->) & _).
    exists [MainStep]. simpl. unfold main_step. simpl.
    destruct (cmd_Wait ws); simpl; eexists; repeat split; try reflexivity; lia.
  - destruct HI as (err & -> & _ & (ws' & [= <-] & _ & ->) & _).
    exists []. simpl. eexists. repeat split; try reflexivity. lia.
Qed.

(** X11. In a call whose child was started, once the child has ended the
    caller is never stuck: from every state that can be reached, at most
    five further events end the call, with the result made from what
    [cmd.Wait] returns. *)
Theorem returns_within_five_events (t0 : Time) (s0 : St) (evs : list Event)
    (s : Sup) (ws : WaitStatus) :
  run (oidcLogin_enter None t0 s0) evs = Some s ->
  proc s = Exited ws ->
  exists evs' s',
    (length evs' <= 5)%nat /\
    run s evs' = Some s' /\
    pc s' = PReturned (login_result (cmd_Wait ws)).
Proof. apply ends_within_five. Qed.

Lemma exited_stays (s s' : Sup) (ev : Event) (ws : WaitStatus) :
  step s ev = Some s' -> proc s = Exited ws -> proc s' = Exited ws.
Proof.
  destruct s as [clk pr wt dn tt tf kt kf p [c tr]]. simpl.
  intros Hstep ->.
  destruct ev; simpl in Hstep; unfold main_step in Hstep; simpl in Hstep;
    repeat case_match; simplify_eq/=; reflexivity.
Qed.

Lemma exited_stays_run (ws : WaitStatus) (evs : list Event) :
  forall s s', run s evs = Some s' -> proc s = Exited ws -> proc s' = Exited ws.
Proof.
  induction evs as [|ev evs IH]; simpl; intros s s' Hrun Hp.
  - congruence.
  - destruct (step s ev) as [s1|] eqn:Hstep; [|discriminate].
    eapply IH; [exact Hrun|]. eapply exited_stays; eassumption.
Qed.

(** Whatever the way [ws] in which the child ends, a call whose child is
    still running, or has ended in that way, can run to its return, and
    then returns what line 132 makes of [cmd.Wait]. *)
Lemma call_can_return (t0 : Time) (s0 : St) (evs : list Event) (s : Sup)
    (ws : WaitStatus) :
  run (oidcLogin_enter None t0 s0) evs = Some s ->
  proc s = Running \/ proc s = Exited ws ->
  exists evs' s',
    run s evs' = Some s' /\
    proc s' = Exited ws /\
    pc s' = PReturned (login_result (cmd_Wait ws)) /\
    oidcLogin {| start_result := None; start_time := t0;
                 schedule := evs ++ evs' |} s0 =
      Some (login_result (cmd_Wait ws), st s').
Proof.
  intros Hrun [Hp|Hp].
  - assert (Hstep : step s (ProcExit ws) = Some (set_proc s (Exited ws))).
    { simpl. rewrite Hp. reflexivity. }
    assert (Hrun1 : run (oidcLogin_enter None t0 s0) (evs ++ [ProcExit ws]) =
                    Some (set_proc s (Exited ws))).
    { rewrite run_app, Hrun. simpl. rewrite Hp. reflexivity. }
    destruct (ends_within_five _ _ _ _ ws Hrun1 eq_refl)
      as (evs' & s' & _ & Hrun' & Hpc').
    exists (ProcExit ws :: evs'), s'.
    assert (Hall : run s (ProcExit ws :: evs') = Some s').
    { simpl. rewrite Hp. exact Hrun'. }
    split; [exact Hall|].
    split; [eapply exited_stays_run; [exact Hrun'|reflexivity]|].
    split; [exact Hpc'|].
    unfold oidcLogin. cbn [start_result start_time schedule].
    rewrite run_app, Hrun, Hall, Hpc'. reflexivity.
  - destruct (ends_within_five _ _ _ _ ws Hrun Hp)
      as (evs' & s' & _ & Hrun' & Hpc').
    exists evs', s'. split; [exact Hrun'|].
    split; [eapply exited_stays_run; eassumption|].
    split; [exact Hpc'|].
    unfold oidcLogin. cbn [start_result start_time schedule].
    rewrite run_app, Hrun, Hrun', Hpc'. reflexivity.
Qed.

(** C3. In a call whose child was started, the value returned is made from
    what [cmd.Wait] returned and from nothing else.  Whenever the caller
    has returned, the child has ended and the result is nil exactly when
    it exited with status 0, and otherwise the error of line 133 around the
    wait error.  The result is produced: whatever the way in which the
    child ends, the call can run to its return from every state that can
    be reached, and [oidcLogin] then returns that value.  A timer function
    that runs changes neither the position of the caller, nor the channel,
    nor the recorded end of the child; an error from its signal call only
    adds a log entry. *)
Theorem oidcLogin_result_is_wait_outcome (t0 : Time) (s0 : St)
    (evs : list Event) (s : Sup) :
  run (oidcLogin_enter None t0 s0) evs = Some s ->
  (forall res, pc s = PReturned res ->
     exists ws,
       proc s = Exited ws /\
       res = login_result (cmd_Wait ws) /\
       (res = None <-> ws = WExited 0) /\
       (ws <> WExited 0 ->
        res = Some (Errorf "error during OIDC login: %v" (ExitError ws)))) /\
  (forall ws, proc s = Running \/ proc s = Exited ws ->
     exists evs' s',
       run s evs' = Some s' /\
       proc s' = Exited ws /\
       pc s' = PReturned (login_result (cmd_Wait ws)) /\
       oidcLogin {| start_result := None; start_time := t0;
                    schedule := evs ++ evs' |} s0 =
         Some (login_result (cmd_Wait ws), st s') /\
       (login_result (cmd_Wait ws) = None <-> ws = WExited 0)) /\
  (forall r s',
     step s (TermRun r) = Some s' \/ step s (KillRun r) = Some s' ->
     pc s' = pc s /\ done s' = done s /\ proc s' = proc s /\
     waited s' = waited s /\ client (st s') = client (st s) /\
     exists entries,
       trace (st s') = trace (st s) ++ entries /\
       forall e, r = Some e -> exists format, ELog format [AErr e] ∈ entries).
Proof.
  intros Hrun. split; [|split; [|intros r s'; apply timer_function_frame]].
  - intros res Hpc. apply started_Inv in Hrun.
    destruct Hrun as (_ & _ & _ & HI). rewrite Hpc in HI.
    destruct HI as (err & -> & _ & (ws & Hp & _ & ->) & _).
    exists ws. split; [exact Hp|]. split; [reflexivity|].
    split; [apply login_result_nil|].
    intros Hne. destruct ws as [[| |]|]; simpl; congruence.
  - intros ws Hp.
    destruct (call_can_return _ _ _ _ ws Hrun Hp)
      as (evs' & s' & H1 & H2 & H3 & H4).
    exists evs', s'. repeat split; try assumption; apply login_result_nil.
Qed.

Lemma count_kind (k f : Effect -> bool) (l : list Effect) :
  (forall e, k e = true -> f e = false) ->
  forallb k l = true -> count f l = 0%nat.
Proof.
  intros Hkf. unfold count. induction l as [|e l IH]; simpl; [reflexivity|].
  intros Hall. apply andb_true_iff in Hall as [He Hl].
  rewrite (Hkf e He). apply IH. exact Hl.
Qed.

Lemma kind_not_in (k : Effect -> bool) (l : list Effect) (e : Effect) :
  forallb k l = true -> k e = false -> ~ In e l.
Proof.
  intros Hall Hk Hin. rewrite forallb_forall in Hall.
  specialize (Hall e Hin). congruence.
Qed.

Lemma oidcLogin_trace (env : LoginEnv) (s s' : St) (res : option error) :
  oidcLogin env s = Some (res, s') ->
  client s' = client s /\
  exists ext,
    trace s' = trace s ++ EStart (login_argv (client s)) :: ext /\
    forallb supervision_kind ext = true.
Proof.
  unfold oidcLogin. intros H.
  destruct (run _ (schedule env)) as [sf|] eqn:Hrun; [|discriminate].
  destruct (pc sf); try discriminate. injection H as <- <-.
  destruct (run_quiet _ _ _ Hrun) as (Hc & ext & He & Hq).
  destruct (start_result env); simpl in *.
  - split; [exact Hc|]. exists ext. rewrite He, <- app_assoc. auto.
  - split; [exact Hc|].
    exists ([EGoWait; EAfterFunc TermTimer (1 * Minute);
             EAfterFunc KillTimer (90 * Second)] ++ ext).
    rewrite He, <- app_assoc. split; [reflexivity|].
    rewrite forallb_app, Hq. reflexivity.
Qed.

(** X12. A call of [oidcLogin] that returns has started the command once,
    with the address of the client, before anything else; it has read no
    file, made no lookup and ended no process, and it leaves the client as
    it was. *)
Theorem oidcLogin_effects (env : LoginEnv) (s s' : St) (res : option error) :
  oidcLogin env s = Some (res, s') ->
  client s' = client s /\
  exists ext,
    trace s' = trace s ++ EStart (login_argv (client s)) :: ext /\
    forallb supervision_kind ext = true /\
    count is_EStart ext = 0%nat /\
    count is_EReadFile ext = 0%nat /\
    count is_ELookupSelf ext = 0%nat /\
    count is_EExit ext = 0%nat.
Proof.
  intros H. destruct (oidcLogin_trace _ _ _ _ H) as (Hc & ext & He & Hq).
  split; [exact Hc|]. exists ext. split; [exact He|]. split; [exact Hq|].
  repeat split; (eapply count_kind; [|exact Hq]); intros []; simpl; congruence.
Qed.

(** ** Further properties of [main] *)

Section OrchestratorMore.

Variable time_Parse : string -> string -> error + Time.
Variable time_ParseDuration : string -> error + Duration.

Lemma ttl_trace_kind (w : World) (p : string) (s : St) :
  exists eff,
    trace (snd (ttl time_Parse w p s)) = trace s ++ eff /\
    forallb ttl_kind eff = true /\
    count is_EStat eff = 1%nat /\
    (forall q, In (EStat q) eff \/ In (EReadFile q) eff -> q = p).
Proof.
  exists (ttl_effects time_Parse w p s).
  split; [apply ttl_effects_spec|]. split; [apply ttl_effects_kind|].
  unfold ttl_effects, count. ttl_run.
  repeat case_match; simpl; trace_split; (split; [reflexivity|]);
    intros q Hin; simpl in Hin; intuition congruence.
Qed.

Lemma ttl_panic_message (w : World) (p : string) (s : St) (msg : string) :
  fst (ttl time_Parse w p s) = Panicked msg -> msg = nil_dereference.
Proof.
  destruct (ttl_outcome time_Parse w p s) as [[_ H]|[(t & _ & H)|[_ H]]];
    rewrite H; congruence.
Qed.

Lemma login_argv_address (c c' : Client) :
  address c = address c' -> login_argv c = login_argv c'.
Proof. unfold login_argv. intros ->. reflexivity. Qed.

(** The ways in which a run of [main] ends: the trace is what came before
    the end, [pre], and the end itself, [fin]. *)
Lemma main_cases (env : Env) (cl : CommandLine) (code : Z) (tr : list Effect) :
  main time_Parse time_ParseDuration env cl = Some (code, tr) ->
  exists pre fin,
    tr = pre ++ fin /\
    ((exists format args,
        fin = [ELog format args; EExit code] /\ (code = 0 \/ code = 1)) \/
     (fin = [EPanic nil_dereference] /\ code = 2) \/
     (exists err,
        fin = [EUsage err; EExit code] /\ pre = [] /\
        ((cl = FlagsHelp /\ code = 0) \/ (exists e, cl = FlagsBad e /\ code = 2)))) /\
    (pre = [] \/
     exists fl c eff1,
       cl = FlagsOk fl /\
       api_NewClient env (vaultAddr fl) = inr c /\
       forallb ttl_kind eff1 = true /\
       count is_EStat eff1 = 1%nat /\
       (forall q, In (EStat q) eff1 \/ In (EReadFile q) eff1 ->
                  q = os_ExpandEnv env (unexpandedTokenPath fl)) /\
       (pre = eff1 \/
        exists ext,
          forallb supervision_kind ext = true /\
          (pre = eff1 ++ EStart (login_argv c) :: ext \/
           exists eff2,
             forallb ttl_kind eff2 = true /\
             count is_EStat eff2 = 1%nat /\
             (forall q, In (EStat q) eff2 \/ In (EReadFile q) eff2 ->
                        q = os_ExpandEnv env (unexpandedTokenPath fl)) /\
             pre = eff1 ++ (EStart (login_argv c) :: ext) ++ eff2))).
Proof.
  destruct cl as [fl| |err]; simpl.
  2:{ intros [= <- <-]. exists [], [EUsage None; EExit 0].
      split; [reflexivity|]. split; [|auto].
      right. right. exists None. auto. }
  2:{ intros [= <- <-]. exists [], [EUsage (Some err); EExit 2].
      split; [reflexivity|]. split; [|auto].
      right. right. exists (Some err). eauto 10. }
  unfold main_flags, log_Fatalf, os_Exit, go_panic.
  destruct (time_ParseDuration (minTTLStr fl)) as [err|minTTL] eqn:Hd.
  { intros [= <- <-]. exists [], [ELog "### error parsing duration: %v" [AErr err]; EExit 1].
    split; [reflexivity|]. split; [left; eauto 10|auto]. }
  destruct (api_NewClient env (vaultAddr fl)) as [err|c] eqn:Hc.
  { intros [= <- <-].
    exists [], [ELog "### error creating vault client: %v" [AErr err]; EExit 1].
    split; [reflexivity|]. split; [left; eauto 10|auto]. }
  intros Hmain.
  pose proof (ttl_trace_kind (world1 env)
                (os_ExpandEnv env (unexpandedTokenPath fl))
                {| client := c; trace := [] |}) as (eff1 & He1 & Hk1 & Hs1 & Hp1).
  pose proof (ttl_address time_Parse (world1 env)
                (os_ExpandEnv env (unexpandedTokenPath fl))
                {| client := c; trace := [] |}) as Ha1.
  pose proof (ttl_panic_message (world1 env)
                (os_ExpandEnv env (unexpandedTokenPath fl))
                {| client := c; trace := [] |}) as Hm1.
  destruct (ttl time_Parse (world1 env) _ _) as [[cur|msg] s1]; simpl in *.
  2:{ injection Hmain as <- <-. rewrite (Hm1 msg eq_refl).
      exists eff1, [EPanic nil_dereference]. rewrite He1.
      split; [reflexivity|]. split; [auto|].
      right. exists fl, c, eff1. auto 10. }
  destruct (cur >? minTTL) eqn:Hgt.
  { injection Hmain as <- <-.
    exists eff1, [ELog "### token ttl is not expiring soon: %v" [ADur cur]; EExit 0].
    rewrite He1, <- app_assoc. split; [reflexivity|].
    split; [left; eauto 10|]. right. exists fl, c, eff1. auto 10. }
  destruct (oidcLogin (login env) s1) as [[res s2]|] eqn:Hl; [|discriminate].
  destruct (oidcLogin_trace _ _ _ _ Hl) as (Hcl & ext & He & Hq).
  rewrite He1, (login_argv_address _ c Ha1) in He.
  destruct res as [err|].
  { injection Hmain as <- <-.
    exists (eff1 ++ EStart (login_argv c) :: ext),
      [ELog "### error doing vault login: %v" [AErr err]; EExit 1].
    rewrite He. split; [reflexivity|]. split; [left; eauto 10|].
    right. exists fl, c, eff1. repeat (split; [assumption || reflexivity|]).
    right. exists ext. auto. }
  pose proof (ttl_trace_kind (world2 env)
                (os_ExpandEnv env (unexpandedTokenPath fl)) s2)
    as (eff2 & He2 & Hk2 & Hs2 & Hp2).
  pose proof (ttl_panic_message (world2 env)
                (os_ExpandEnv env (unexpandedTokenPath fl)) s2) as Hm2.
  destruct (ttl time_Parse (world2 env) _ s2) as [[d|msg] s3]; simpl in *.
  - injection Hmain as <- <-.
    exists (eff1 ++ (EStart (login_argv c) :: ext) ++ eff2),
      [ELog "### current token ttl is now %v" [ADur d]; EExit 0].
    rewrite He2, He, <- !app_assoc. split; [reflexivity|].
    split; [left; eauto 10|].
    right. exists fl, c, eff1. repeat (split; [assumption || reflexivity|]).
    right. exists ext. split; [assumption|]. right. exists eff2. auto.
  - injection Hmain as <- <-. rewrite (Hm2 msg eq_refl).
    exists (eff1 ++ (EStart (login_argv c) :: ext) ++ eff2), [EPanic nil_dereference].
    rewrite He2, He, <- !app_assoc. split; [reflexivity|].
    split; [auto|].
    right. exists fl, c, eff1. repeat (split; [assumption || reflexivity|]).
    right. exists ext. split; [assumption|]. right. exists eff2. auto.
Qed.

Lemma ttl_kind_counts (l : list Effect) :
  forallb ttl_kind l = true ->
  count is_EStart l = 0%nat /\ count ends_run l = 0%nat /\
  (forall argv, ~ In (EStart argv) l).
Proof.
  intros Hk. repeat split.
  - eapply count_kind; [|exact Hk]. intros []; simpl; congruence.
  - eapply count_kind; [|exact Hk]. intros []; simpl; congruence.
  - intros argv. eapply kind_not_in; [exact Hk|reflexivity].
Qed.

Lemma supervision_kind_counts (l : list Effect) :
  forallb supervision_kind l = true ->
  count is_EStart l = 0%nat /\ count ends_run l = 0%nat /\
  count is_EStat l = 0%nat /\
  (forall argv, ~ In (EStart argv) l) /\
  (forall q, ~ In (EStat q) l /\ ~ In (EReadFile q) l).
Proof.
  intros Hk. repeat split.
  - eapply count_kind; [|exact Hk]. intros []; simpl; congruence.
  - eapply count_kind; [|exact Hk]. intros []; simpl; congruence.
  - eapply count_kind; [|exact Hk]. intros []; simpl; congruence.
  - intros argv. eapply kind_not_in; [exact Hk|reflexivity].
  - eapply kind_not_in; [exact Hk|reflexivity].
  - eapply kind_not_in; [exact Hk|reflexivity].
Qed.

(** What a run of [main] has done before its end. *)
Lemma main_trace_facts (env : Env) (cl : CommandLine) (code : Z)
    (tr : list Effect) :
  main time_Parse time_ParseDuration env cl = Some (code, tr) ->
  exists pre fin,
    tr = pre ++ fin /\
    ((exists format args,
        fin = [ELog format args; EExit code] /\ (code = 0 \/ code = 1)) \/
     (fin = [EPanic nil_dereference] /\ code = 2) \/
     (exists err,
        fin = [EUsage err; EExit code] /\ pre = [] /\
        ((cl = FlagsHelp /\ code = 0) \/ (exists e, cl = FlagsBad e /\ code = 2)))) /\
    count ends_run pre = 0%nat /\
    (count is_EStart pre <= 1)%nat /\
    (count is_EStat pre <= 2)%nat /\
    (forall argv, In (EStart argv) pre ->
       exists fl c, cl = FlagsOk fl /\ api_NewClient env (vaultAddr fl) = inr c /\
                    argv = login_argv c) /\
    (forall q, In (EStat q) pre \/ In (EReadFile q) pre ->
       exists fl, cl = FlagsOk fl /\ q = os_ExpandEnv env (unexpandedTokenPath fl)).
Proof.
  intros Hmain. destruct (main_cases _ _ _ _ Hmain) as (pre & fin & Htr & Hfin & Hpre).
  exists pre, fin. split; [exact Htr|]. split; [exact Hfin|]. clear Hfin Htr Hmain.
  destruct Hpre as [->|(fl & c & eff1 & -> & Hc & Hk1 & Hn1 & Hp1 & Hpre)].
  { unfold count. simpl. repeat split; try lia; intros ? Hin; simpl in Hin; tauto. }
  destruct (ttl_kind_counts _ Hk1) as (Hs1 & Hx1 & Hi1).
  destruct Hpre as [->|(ext & Hq & Hpre)].
  { split; [exact Hx1|]. split; [lia|]. split; [lia|]. split.
    - intros argv Hin. destruct (Hi1 _ Hin).
    - intros q Hin. exists fl. split; [reflexivity|]. apply Hp1. exact Hin. }
  destruct (supervision_kind_counts _ Hq) as (Hsq & Hxq & Hnq & Hiq & Hpq).
  assert (Hstart : forall l : list Effect,
            count is_EStart (EStart (login_argv c) :: l) = S (count is_EStart l) /\
            count ends_run (EStart (login_argv c) :: l) = count ends_run l /\
            count is_EStat (EStart (login_argv c) :: l) = count is_EStat l).
  { intros l. unfold count. simpl. auto. }
  destruct Hpre as [->|(eff2 & Hk2 & Hn2 & Hp2 & ->)].
  - rewrite !count_app. destruct (Hstart ext) as (-> & -> & ->).
    split; [lia|]. split; [lia|]. split; [lia|]. split.
    + intros argv Hin. apply in_app_or in Hin as [Hin|Hin]; [destruct (Hi1 _ Hin)|].
      destruct Hin as [Heq|Hin]; [|destruct (Hiq _ Hin)].
      exists fl, c. split; [reflexivity|]. split; [exact Hc|]. congruence.
    + intros q Hin. exists fl. split; [reflexivity|].
      destruct Hin as [Hin|Hin]; apply in_app_or in Hin as [Hin|Hin];
        try (apply Hp1; auto; fail);
        (destruct Hin as [Heq|Hin]; [discriminate|]);
        destruct (Hpq q) as [Ha Hb]; tauto.
  - destruct (ttl_kind_counts _ Hk2) as (Hs2 & Hx2 & Hi2).
    rewrite !count_app. destruct (Hstart ext) as (-> & -> & ->).
    split; [lia|]. split; [lia|]. split; [lia|]. split.
    + intros argv Hin. apply in_app_or in Hin as [Hin|Hin]; [destruct (Hi1 _ Hin)|].
      destruct Hin as [Heq|Hin].
      * exists fl, c. split; [reflexivity|]. split; [exact Hc|]. congruence.
      * apply in_app_or in Hin as [Hin|Hin];
          [destruct (Hiq _ Hin)|destruct (Hi2 _ Hin)].
    + intros q Hin. exists fl. split; [reflexivity|].
      destruct Hin as [Hin|Hin]; apply in_app_or in Hin as [Hin|Hin];
        try (apply Hp1; auto; fail);
        (destruct Hin as [Heq|Hin]; [discriminate|]);
        apply in_app_or in Hin as [Hin|Hin];
        try (apply Hp2; auto; fail);
        destruct (Hpq q) as [Ha Hb]; tauto.
Qed.

Lemma in_end_inv (e : Effect) (fin : list Effect) (code : Z) :
  ((exists format args, fin = [ELog format args; EExit code]) \/
   fin = [EPanic nil_dereference] \/
   (exists err, fin = [EUsage err; EExit code])) ->
  In e fin ->
  match e with EStart _ | EStat _ | EReadFile _ => False | _ => True end.
Proof.
  intros [(f & a & ->)|[->|(err & ->)]] Hin; simpl in Hin;
    intuition (subst; exact I).
Qed.

(** C1, as the code has it.  When the flags parse, the client is built and
    the first evaluation returns [currTTL]: if [currTTL] is strictly
    greater than the minimum, the run ends with exit status 0 and the login
    command is never started; if it is less than or equal to the minimum,
    [oidcLogin] is called: the command is started on entry, the run ends
    exactly when the call returns, and every run that ends has the start
    in its trace. *)
Theorem main_fresh_token_skips_login (env : Env) (fl : Flags)
    (minTTL currTTL : Duration) (c : Client) (s1 : St) :
  time_ParseDuration (minTTLStr fl) = inr minTTL ->
  api_NewClient env (vaultAddr fl) = inr c ->
  ttl time_Parse (world1 env) (os_ExpandEnv env (unexpandedTokenPath fl))
    {| client := c; trace := [] |} = (Returned currTTL, s1) ->
  (minTTL < currTTL ->
   exists tr,
     main time_Parse time_ParseDuration env (FlagsOk fl) = Some (0, tr) /\
     login_invoked tr = false) /\
  (currTTL <= minTTL ->
   login_invoked
     (trace (st (oidcLogin_enter (start_result (login env))
                   (start_time (login env)) s1))) = true /\
   (is_Some (main time_Parse time_ParseDuration env (FlagsOk fl)) <->
    is_Some (oidcLogin (login env) s1)) /\
   (forall code tr,
      main time_Parse time_ParseDuration env (FlagsOk fl) = Some (code, tr) ->
      login_invoked tr = true)).
Proof.
  intros Hdur Hcl Httl.
  pose proof (ttl_trace time_Parse (world1 env)
                (os_ExpandEnv env (unexpandedTokenPath fl))
                {| client := c; trace := [] |}) as (ext1 & Htr1 & Hno1).
  rewrite Httl in Htr1. simpl in Htr1.
  split.
  - intros Hlt. simpl. unfold main_flags. rewrite Hdur, Hcl, Httl.
    assert (Hgt : (currTTL >? minTTL) = true) by (apply Z.gtb_lt; exact Hlt).
    rewrite Hgt. eexists. split; [reflexivity|].
    unfold login_invoked. rewrite Htr1.
    rewrite !existsb_app, Hno1. reflexivity.
  - intros Hle.
    assert (Hgt : (currTTL >? minTTL) = false).
    { rewrite Z.gtb_ltb. apply Z.ltb_ge. exact Hle. }
    split; [|split].
    + unfold login_invoked.
      destruct (start_result (login env)); simpl;
        rewrite existsb_app; simpl; apply orb_true_r.
    + simpl. unfold main_flags. rewrite Hdur, Hcl, Httl, Hgt.
      destruct (oidcLogin (login env) s1) as [[[err|] s2]|]; simpl.
      * split; intros _; eexists; reflexivity.
      * destruct (ttl time_Parse (world2 env) _ s2) as [[d|msg] s3];
          split; intros _; eexists; reflexivity.
      * split; intros [x Hx]; discriminate.
    + intros code tr. simpl. unfold main_flags. rewrite Hdur, Hcl, Httl, Hgt.
      destruct (oidcLogin (login env) s1) as [[res s2]|] eqn:Hl; [|discriminate].
      destruct (oidcLogin_trace _ _ _ _ Hl) as (_ & ext & He & _).
      assert (Hinv : login_invoked (trace s2) = true).
      { unfold login_invoked. rewrite He, existsb_app. simpl. apply orb_true_r. }
      destruct res as [err|].
      * intros [= <- <-]. unfold login_invoked in *.
        rewrite existsb_app, Hinv. reflexivity.
      * pose proof (ttl_trace time_Parse (world2 env)
                      (os_ExpandEnv env (unexpandedTokenPath fl)) s2)
          as (ext2 & Htr2 & _).
        destruct (ttl time_Parse (world2 env) _ s2) as [[d|msg] s3];
          simpl in Htr2; intros [= <- <-]; unfold login_invoked in *;
          rewrite Htr2, !existsb_app, Hinv; reflexivity.
Qed.

(** X13. Every run of [main] that ends does so with exit status 0, 1 or
    2.  What ends it, a call of [os.Exit] with that status or the report
    of a panic with status 2, is the last effect of the run and the only
    one of its kind.  Status 2 comes only from a command line that
    [flag.Parse] rejects or from the panic of [ttl] on a nil secret. *)
Theorem main_exits_once (env : Env) (cl : CommandLine) (code : Z)
    (tr : list Effect) :
  main time_Parse time_ParseDuration env cl = Some (code, tr) ->
  (code = 0 \/ code = 1 \/ code = 2) /\
  (exists tr' last,
     tr = tr' ++ [last] /\ count ends_run tr' = 0%nat /\
     (last = EExit code \/ (code = 2 /\ last = EPanic nil_dereference))) /\
  (code = 2 ->
   (exists err, cl = FlagsBad err) \/
   exists tr', tr = tr' ++ [EPanic nil_dereference]).
Proof.
  intros Hmain.
  destruct (main_trace_facts _ _ _ _ Hmain)
    as (pre & fin & -> & Hfin & Hx & _).
  destruct Hfin as [(f & a & -> & Hcode)|[(-> & ->)|(err & -> & -> & Hcl)]].
  - split; [tauto|]. split.
    + exists (pre ++ [ELog f a]), (EExit code). rewrite <- app_assoc.
      split; [reflexivity|]. rewrite count_app, Hx. auto.
    + intros ->. destruct Hcode; discriminate.
  - split; [auto|]. split.
    + exists pre, (EPanic nil_dereference). auto.
    + intros _. right. exists pre. reflexivity.
  - split; [destruct Hcl as [[_ ->]|(e & _ & ->)]; auto|]. split.
    + exists [EUsage err], (EExit code). auto.
    + intros ->. destruct Hcl as [[_ Hc]|(e & -> & _)]; [discriminate|eauto].
Qed.

(** X14. A run of [main] starts the login command at most once, and then
    with the address of the client that [api.NewClient] returned. *)
Theorem main_starts_login_at_most_once (env : Env) (cl : CommandLine)
    (code : Z) (tr : list Effect) :
  main time_Parse time_ParseDuration env cl = Some (code, tr) ->
  (count is_EStart tr <= 1)%nat /\
  (forall argv, In (EStart argv) tr ->
     exists fl c,
       cl = FlagsOk fl /\
       api_NewClient env (vaultAddr fl) = inr c /\
       argv = ["vault"; "login"; "-method=oidc"; "-address"; address c]%string).
Proof.
  intros Hmain.
  destruct (main_trace_facts _ _ _ _ Hmain)
    as (pre & fin & -> & Hfin & _ & Hs & _ & Harg & _).
  assert (Hfin' : (exists format args, fin = [ELog format args; EExit code]) \/
                  fin = [EPanic nil_dereference] \/
                  (exists err, fin = [EUsage err; EExit code])).
  { destruct Hfin as [(f & a & -> & _)|[(-> & _)|(err & -> & _)]]; eauto. }
  split.
  - rewrite count_app.
    destruct Hfin' as [(f & a & ->)|[->|(err & ->)]]; unfold count at 2;
      simpl; lia.
  - intros argv Hin. apply in_app_or in Hin as [Hin|Hin]; [apply Harg; exact Hin|].
    destruct (in_end_inv _ _ _ Hfin' Hin).
Qed.

(** X15. When the first evaluation is not above the minimum and the child
    ends otherwise than with exit status 0, the run ends with exit status
    1, the error of [cmd.Wait] is in the last log line, and freshness is
    not evaluated again. *)
Theorem main_child_failure_is_fatal (env : Env) (fl : Flags)
    (minTTL currTTL : Duration) (c : Client) (s1 : St) (sf : Sup)
    (ws : WaitStatus) (res : option error) :
  time_ParseDuration (minTTLStr fl) = inr minTTL ->
  api_NewClient env (vaultAddr fl) = inr c ->
  ttl time_Parse (world1 env) (os_ExpandEnv env (unexpandedTokenPath fl))
    {| client := c; trace := [] |} = (Returned currTTL, s1) ->
  currTTL <= minTTL ->
  start_result (login env) = None ->
  run (oidcLogin_enter None (start_time (login env)) s1) (schedule (login env))
    = Some sf ->
  pc sf = PReturned res ->
  proc sf = Exited ws ->
  ws <> WExited 0 ->
  main time_Parse time_ParseDuration env (FlagsOk fl) =
    Some (1, trace (st sf) ++
             [ELog "### error doing vault login: %v"
                [AErr (Errorf "error during OIDC login: %v" (ExitError ws))];
              EExit 1]).
Proof.
  intros Hd Hc Httl Hle Hstart Hrun Hpc Hp Hne. unfold main, main_flags.
  rewrite Hd, Hc, Httl.
  assert (Hgt : (currTTL >? minTTL) = false).
  { rewrite Z.gtb_ltb. apply Z.ltb_ge. exact Hle. }
  rewrite Hgt. unfold oidcLogin. rewrite Hstart, Hrun, Hpc.
  pose proof (started_Inv _ _ _ _ Hrun) as (_ & _ & _ & HI). rewrite Hpc in HI.
  destruct HI as (err & -> & _ & (ws' & Hp' & _ & ->) & _).
  rewrite Hp in Hp'. injection Hp' as <-.
  destruct ws as [[| |]|]; simpl; try congruence; reflexivity.
Qed.

(** X16. A run of [main] ends with exit status 0 only if help was asked
    for on the command line, or the first evaluation was above the minimum
    (and then no login was started), or the child was started and ended
    with exit status 0. *)
Theorem main_exit_zero_means (env : Env) (cl : CommandLine) (tr : list Effect) :
  main time_Parse time_ParseDuration env cl = Some (0, tr) ->
  cl = FlagsHelp \/
  exists fl minTTL c currTTL s1,
    cl = FlagsOk fl /\
    time_ParseDuration (minTTLStr fl) = inr minTTL /\
    api_NewClient env (vaultAddr fl) = inr c /\
    ttl time_Parse (world1 env) (os_ExpandEnv env (unexpandedTokenPath fl))
      {| client := c; trace := [] |} = (Returned currTTL, s1) /\
    ((minTTL < currTTL /\ count is_EStart tr = 0%nat) \/
     (currTTL <= minTTL /\ start_result (login env) = None /\
      exists sf,
        run (oidcLogin_enter None (start_time (login env)) s1)
          (schedule (login env)) = Some sf /\
        proc sf = Exited (WExited 0))).
Proof.
  destruct cl as [fl| |err]; unfold main;
    [|left; reflexivity|unfold os_Exit; discriminate].
  unfold main_flags, log_Fatalf, os_Exit, go_panic. intros Hmain. right.
  destruct (time_ParseDuration (minTTLStr fl)) as [err|minTTL] eqn:Hd;
    [discriminate|].
  destruct (api_NewClient env (vaultAddr fl)) as [err|c] eqn:Hc; [discriminate|].
  pose proof (ttl_trace_kind (world1 env)
                (os_ExpandEnv env (unexpandedTokenPath fl))
                {| client := c; trace := [] |}) as (eff1 & He1 & Hk1 & _).
  destruct (ttl time_Parse (world1 env) _ _) as [[cur|msg] s1] eqn:Httl;
    [|discriminate].
  simpl in He1.
  exists fl, minTTL, c, cur, s1. split; [reflexivity|]. split; [exact Hd|].
  split; [exact Hc|]. split; [exact Httl|].
  destruct (ttl_kind_counts _ Hk1) as (Hs1 & _ & _).
  destruct (cur >? minTTL) eqn:Hgt.
  { injection Hmain as <-. left. apply Z.gtb_lt in Hgt. split; [exact Hgt|].
    rewrite He1, !count_app, Hs1. reflexivity. }
  right. split; [rewrite Z.gtb_ltb in Hgt; apply Z.ltb_ge in Hgt; exact Hgt|].
  unfold oidcLogin in Hmain.
  destruct (run _ (schedule (login env))) as [sf|] eqn:Hrun; [|discriminate].
  destruct (pc sf) as [| | | |[e|]] eqn:Hpc; try discriminate.
  destruct (start_result (login env)) as [e|] eqn:Hst.
  { exfalso. eapply failed_start_run in Hrun; [|repeat split; reflexivity].
    destruct Hrun as ((Hpc' & _) & _). congruence. }
  split; [reflexivity|]. exists sf. split; [exact Hrun|].
  pose proof (started_Inv _ _ _ _ Hrun) as (_ & _ & _ & HI). rewrite Hpc in HI.
  destruct HI as (err & Hr & _ & (ws & Hp & _ & ->) & _).
  symmetry in Hr. apply login_result_nil in Hr. subst ws. exact Hp.
Qed.

(** X17. A run of [main] calls [os.Stat] at most twice, and the only path
    it ever hands to [os.Stat] or [os.ReadFile] is the expansion of the
    [-token-path] flag. *)
Theorem main_touches_only_token_path (env : Env) (cl : CommandLine)
    (code : Z) (tr : list Effect) :
  main time_Parse time_ParseDuration env cl = Some (code, tr) ->
  (count is_EStat tr <= 2)%nat /\
  (forall q, In (EStat q) tr \/ In (EReadFile q) tr ->
     exists fl, cl = FlagsOk fl /\
                q = os_ExpandEnv env (unexpandedTokenPath fl)).
Proof.
  intros Hmain.
  destruct (main_trace_facts _ _ _ _ Hmain)
    as (pre & fin & -> & Hfin & _ & _ & Hn & _ & Hq).
  assert (Hfin' : (exists format args, fin = [ELog format args; EExit code]) \/
                  fin = [EPanic nil_dereference] \/
                  (exists err, fin = [EUsage err; EExit code])).
  { destruct Hfin as [(f & a & -> & _)|[(-> & _)|(err & -> & _)]]; eauto. }
  split.
  - rewrite count_app.
    destruct Hfin' as [(f & a & ->)|[->|(err & ->)]]; unfold count at 2;
      simpl; lia.
  - intros q [Hin|Hin]; apply in_app_or in Hin as [Hin|Hin];
      try (apply Hq; auto; fail);
      destruct (in_end_inv _ _ _ Hfin' Hin).
Qed.

End OrchestratorMore.

(** ** The theorems at concrete inputs *)

(** C2.  The token file is readable and the server answers the lookup with
    an empty body, so that [LookupSelf] returns a nil secret and a nil
    error: [ttl] does not return zero; it panics at line 73, after it has
    set the token of the client. *)
Theorem ttl_nil_secret_panics :
  ttl sample_time_Parse (empty_body_world sample_now) sample_path sample_st =
    (Panicked nil_dereference,
     {| client := {| address := "https://vault.acme.com"; token := "s.abc" |};
        trace :=
          [EStat sample_path; EReadFile sample_path;
           ELookupSelf {| address := "https://vault.acme.com";
                          token := "s.abc" |}] |}) /\
  main sample_time_Parse sample_time_ParseDuration env_empty_body
    (FlagsOk sample_flags) =
    Some (2, [EStat sample_path; EReadFile sample_path;
              ELookupSelf {| address := "https://vault.acme.com";
                             token := "s.abc" |};
              EPanic nil_dereference]).
Proof. split; vm_compute; reflexivity. Qed.

(** The lookup answers with a number for [expire_time]: zero. *)
Example ttl_number_expiry_is_zero :
  ttl_failure sample_time_Parse
    (sample_world sample_now {[ "expire_time"%string := JNumber "1793664000" ]})
    sample_path (client sample_st) /\
  fst (ttl sample_time_Parse
         (sample_world sample_now {[ "expire_time"%string := JNumber "1793664000" ]})
         sample_path sample_st) = Returned 0.
Proof.
  split; [|vm_compute; reflexivity].
  eapply F_not_string with (v := JNumber "1793664000");
    [reflexivity | reflexivity | reflexivity | vm_compute; reflexivity
    | discriminate].
Qed.

Lemma sample_expiry (now : Time) (stamp : string) (t : Time) :
  sample_time_Parse RFC3339Nano stamp = inr t ->
  ttl_expiry sample_time_Parse (sample_world now (expires_at stamp))
    sample_path (client sample_st) t.
Proof.
  intros Hp. exists sample_token_bytes, {| Data := expires_at stamp |}, stamp.
  split; [reflexivity|]. split; [reflexivity|]. split; [reflexivity|].
  split; [apply lookup_singleton_eq|exact Hp].
Qed.

(** C7 as stated fails: an expiry in the year 2500, seen from 2026, is more
    than [maxDuration] away, and [ttl] returns [maxDuration], not the
    difference. *)
Lemma ttl_far_future_expiry_saturates :
  ttl_expiry sample_time_Parse
    (sample_world sample_now (expires_at "2500-01-01T00:00:00Z"))
    sample_path (client sample_st) (16725225600 * Second) /\
  sample_now < 16725225600 * Second /\
  fst (ttl sample_time_Parse
         (sample_world sample_now (expires_at "2500-01-01T00:00:00Z"))
         sample_path sample_st) = Returned 9223372036854775807 /\
  fst (ttl sample_time_Parse
         (sample_world sample_now (expires_at "2500-01-01T00:00:00Z"))
         sample_path sample_st) <>
    Returned (16725225600 * Second - sample_now).
Proof.
  split; [apply sample_expiry; reflexivity|].
  split; [reflexivity|].
  split; [vm_compute; reflexivity|].
  vm_compute. discriminate.
Qed.

(** An expiry on 2030-01-01, seen from 2026-10-31. *)
Lemma ttl_expiry_minus_now_witness :
  ttl_expiry sample_time_Parse
    (sample_world sample_now (expires_at "2030-01-01T00:00:00Z"))
    sample_path (client sample_st) (1893456000 * Second) /\
  let w := sample_world sample_now (expires_at "2030-01-01T00:00:00Z") in
  let t := 1893456000 * Second in
  let d := time_Sub t (time_Now w) in
  fst (ttl sample_time_Parse w sample_path sample_st) = Returned d /\
  (time_Now w < t ->
   0 < d /\
   (t - time_Now w <= maxDuration -> d = t - time_Now w) /\
   (maxDuration < t - time_Now w -> d = maxDuration)) /\
  (t < time_Now w ->
   d < 0 /\
   (minDuration <= t - time_Now w -> d = t - time_Now w) /\
   (t - time_Now w < minDuration -> d = minDuration)).
Proof.
  assert (H : ttl_expiry sample_time_Parse
                (sample_world sample_now (expires_at "2030-01-01T00:00:00Z"))
                sample_path (client sample_st) (1893456000 * Second)).
  { exists sample_token_bytes,
      {| Data := expires_at "2030-01-01T00:00:00Z" |}, "2030-01-01T00:00:00Z"%string.
    repeat split; vm_compute; reflexivity. }
  split; [exact H|].
  exact (ttl_expiry_minus_now sample_time_Parse _ _ _ _ H).
Defined.

Example ttl_2030_from_2026 :
  fst (ttl sample_time_Parse
         (sample_world sample_now (expires_at "2030-01-01T00:00:00Z"))
         sample_path sample_st) = Returned (100051200 * Second).
Proof. vm_compute. reflexivity. Qed.

Example ttl_2020_from_2026 :
  fst (ttl sample_time_Parse
         (sample_world sample_now (expires_at "2020-01-01T00:00:00Z"))
         sample_path sample_st) = Returned (- (215568000 * Second)).
Proof. vm_compute. reflexivity. Qed.

(** A path that is not there. *)
Lemma ttl_missing_path_witness :
  os_IsNotExist (os_Stat (sample_world sample_now ∅) "/nonexistent") = true /\
  ttl sample_time_Parse (sample_world sample_now ∅) "/nonexistent" sample_st =
    (Returned 0,
     {| client := client sample_st;
        trace := trace sample_st ++ [EStat "/nonexistent"] |}) /\
  (forall ext,
     trace (snd (ttl sample_time_Parse (sample_world sample_now ∅)
                   "/nonexistent" sample_st)) = trace sample_st ++ ext ->
     existsb is_EReadFile ext = false /\ existsb is_ELookupSelf ext = false).
Proof.
  split; [reflexivity|].
  apply (ttl_missing_path sample_time_Parse (sample_world sample_now ∅)
           "/nonexistent" sample_st).
  reflexivity.
Defined.

(** The token file ends in a line feed: the token of the client is the
    file, line feed included, although zero is returned. *)
Lemma ttl_sets_token_verbatim_witness :
  os_Stat (lf_world sample_now ∅) sample_path = None /\
  os_ReadFile (lf_world sample_now ∅) sample_path = inr lf_token_bytes /\
  let c' := client (snd (ttl sample_time_Parse (lf_world sample_now ∅)
                           sample_path sample_st)) in
  token c' = String.string_of_list_byte lf_token_bytes /\
  String.list_byte_of_string (token c') = lf_token_bytes /\
  address c' = address (client sample_st).
Proof.
  split; [reflexivity|]. split; [reflexivity|].
  apply (ttl_sets_token_verbatim sample_time_Parse (lf_world sample_now ∅)
           sample_path sample_st lf_token_bytes); reflexivity.
Defined.

(** With the line feed the client refuses the token before any request:
    the lookup returns an error and [ttl] returns zero. *)
Example ttl_keeps_line_feed :
  ttl sample_time_Parse (lf_world sample_now ∅) sample_path sample_st =
    (Returned 0,
     {| client := {| address := "https://vault.acme.com";
                     token := String.string_of_list_byte
                                [x73; x2e; x61; x62; x63; x0a] |};
        trace :=
          [EStat sample_path; EReadFile sample_path;
           ELookupSelf {| address := "https://vault.acme.com";
                          token := String.string_of_list_byte
                                     [x73; x2e; x61; x62; x63; x0a] |};
           ELog "### error looking up token: %v"
             [AErr (ErrOther "configured Vault token contains non-printable characters and cannot be used")]] |}).
Proof. vm_compute. reflexivity. Qed.

(** The child exits with status 0 at one minute, the first timer fires late
    and its signal is refused: the call returns, and returns nil.  And from
    the entry of the call a child that exits with status 1 brings the call
    to return the error around the wait error. *)
Lemma oidcLogin_result_is_wait_outcome_witness :
  run (oidcLogin_enter None sample_now sample_st) sched_late_signal =
    Some (sup_after sample_now sched_late_signal) /\
  pc (sup_after sample_now sched_late_signal) = PReturned None /\
  oidcLogin {| start_result := None; start_time := sample_now;
               schedule := sched_late_signal |} sample_st =
    Some (None, st (sup_after sample_now sched_late_signal)) /\
  (exists ws,
     proc (sup_after sample_now sched_late_signal) = Exited ws /\
     None = login_result (cmd_Wait ws) /\
     (@None error = None <-> ws = WExited 0) /\
     (ws <> WExited 0 ->
      None = Some (Errorf "error during OIDC login: %v" (ExitError ws)))) /\
  (exists evs' s',
     run (oidcLogin_enter None sample_now sample_st) evs' = Some s' /\
     proc s' = Exited (WExited 1) /\
     pc s' = PReturned (login_result (cmd_Wait (WExited 1))) /\
     oidcLogin {| start_result := None; start_time := sample_now;
                  schedule := [] ++ evs' |} sample_st =
       Some (login_result (cmd_Wait (WExited 1)), st s') /\
     (login_result (cmd_Wait (WExited 1)) = None <-> WExited 1 = WExited 0)).
Proof.
  assert (H : run (oidcLogin_enter None sample_now sample_st) sched_late_signal =
              Some (sup_after sample_now sched_late_signal)).
  { vm_compute. reflexivity. }
  assert (Hpc : pc (sup_after sample_now sched_late_signal) = PReturned None).
  { vm_compute. reflexivity. }
  split; [exact H|]. split; [exact Hpc|].
  split; [vm_compute; reflexivity|].
  split.
  - exact (proj1 (oidcLogin_result_is_wait_outcome sample_now sample_st
                    sched_late_signal _ H) None Hpc).
  - apply (proj1 (proj2 (oidcLogin_result_is_wait_outcome sample_now sample_st
                           [] (oidcLogin_enter None sample_now sample_st)
                           eq_refl)) (WExited 1)).
    left. reflexivity.
Defined.

Example late_signal_returns_nil :
  pc (sup_after sample_now sched_late_signal) = PReturned None /\
  ELog "Error sending SIGTERM: %v" [AErr (ErrOther "os: process already finished")]
    ∈ trace (st (sup_after sample_now sched_late_signal)).
Proof.
  split; [vm_compute; reflexivity|].
  apply list_elem_of_In. vm_compute. tauto.
Qed.


Example kill_not_due_before_ninety_seconds :
  step (sup_after sample_now [Tick (60 * Second); TermFire; TermRun None; Tick (29 * Second)])
    KillFire = None.
Proof. vm_compute. reflexivity. Qed.

(** The child ignores SIGTERM and is killed. *)
Lemma oidcLogin_returns_after_exit_witness :
  run (oidcLogin_enter None sample_now sample_st) sched_escalation =
    Some (sup_after sample_now sched_escalation) /\
  pc (sup_after sample_now sched_escalation) =
    PReturned (Some (Errorf "error during OIDC login: %v"
                       (ExitError (WSignaled SIGKILL)))) /\
  (exists ws, proc (sup_after sample_now sched_escalation) = Exited ws) /\
  waited (sup_after sample_now sched_escalation) = true /\
  timer_stopped TermTimer (termTimer (sup_after sample_now sched_escalation))
    (sup_after sample_now sched_escalation) /\
  timer_stopped KillTimer (killTimer (sup_after sample_now sched_escalation))
    (sup_after sample_now sched_escalation) /\
  step (sup_after sample_now sched_escalation) TermFire = None /\
  step (sup_after sample_now sched_escalation) KillFire = None /\
  (forall t, status t = Fired -> Timer_Stop t = t).
Proof.
  split; [vm_compute; reflexivity|]. split; [vm_compute; reflexivity|].
  apply (oidcLogin_returns_after_exit sample_now sample_st sched_escalation
           (sup_after sample_now sched_escalation)
           (Some (Errorf "error during OIDC login: %v"
                    (ExitError (WSignaled SIGKILL)))));
    vm_compute; reflexivity.
Defined.

(** A timer that has expired before [Stop] may send its signal after the
    caller has returned. *)
Example signal_after_return :
  trace (st (sup_after sample_now
               [Tick (60 * Second); TermFire; ProcExit (WExited 0); WaitReturn;
                MainStep; MainStep; MainStep; MainStep;
                TermRun (Some (ErrOther "os: process already finished"))])) =
    [EStart (login_argv sample_client); EGoWait;
     EAfterFunc TermTimer (1 * Minute); EAfterFunc KillTimer (90 * Second);
     EStop TermTimer; EStop KillTimer;
     ELog "Logged in using OIDC successfully." [];
     ELog "Sending SIGTERM to vault login process" []; ESignal SIGTERM;
     ELog "Error sending SIGTERM: %v"
       [AErr (ErrOther "os: process already finished")]].
Proof. vm_compute. reflexivity. Qed.

Example clean_exit_returns_nil :
  oidcLogin {| start_result := None; start_time := sample_now;
               schedule := sched_clean_exit |} sample_st =
    Some (None,
          {| client := sample_client;
             trace := [EStart (login_argv sample_client); EGoWait;
                       EAfterFunc TermTimer (1 * Minute);
                       EAfterFunc KillTimer (90 * Second);
                       EStop TermTimer; EStop KillTimer;
                       ELog "Logged in using OIDC successfully." []] |}).
Proof. vm_compute. reflexivity. Qed.

Example blocked_while_child_runs :
  oidcLogin {| start_result := None; start_time := sample_now;
               schedule := [Tick (100 * Second); MainStep] |} sample_st = None.
Proof. vm_compute. reflexivity. Qed.

(** The executable is not found. *)
Lemma oidcLogin_start_failure_witness :
  run (oidcLogin_enter (Some (ErrOther "exec: vault: executable file not found in $PATH"))
         sample_now sample_st) [Tick (120 * Second)] =
    Some (set_clock
            (oidcLogin_enter
               (Some (ErrOther "exec: vault: executable file not found in $PATH"))
               sample_now sample_st)
            (sample_now + 120 * Second)) /\
  oidcLogin {| start_result :=
                 Some (ErrOther "exec: vault: executable file not found in $PATH");
               start_time := sample_now; schedule := [] |} sample_st =
    Some (Some (Errorf "error starting vault login: %v"
                  (ErrOther "exec: vault: executable file not found in $PATH")),
          {| client := sample_client;
             trace := [EStart (login_argv sample_client)] |}).
Proof.
  assert (H : run (oidcLogin_enter
                     (Some (ErrOther "exec: vault: executable file not found in $PATH"))
                     sample_now sample_st) [Tick (120 * Second)] =
              Some (set_clock
                      (oidcLogin_enter
                         (Some (ErrOther "exec: vault: executable file not found in $PATH"))
                         sample_now sample_st)
                      (sample_now + 120 * Second))).
  { vm_compute. reflexivity. }
  split; [exact H|].
  exact (proj1 (oidcLogin_start_failure _ _ _ _ _ H)).
Defined.

(** C1 as stated fails: with a token that expires in exactly the minimum of
    72 hours the login command is started, and since it exits with status 1
    the run ends with exit status 1. *)
Lemma main_at_threshold_runs_login :
  sample_time_ParseDuration (minTTLStr sample_flags) = inr (72 * Hour) /\
  fst threshold_first = Returned (72 * Hour) /\
  72 * Hour >= 72 * Hour /\
  exists tr,
    main sample_time_Parse sample_time_ParseDuration env_at_threshold
      (FlagsOk sample_flags) = Some (1, tr) /\
    login_invoked tr = true.
Proof.
  split; [reflexivity|]. split; [vm_compute; reflexivity|].
  split; [vm_compute; discriminate|].
  eexists. split; vm_compute; reflexivity.
Qed.

(** A token that expires in more than three years, and a token that
    expires in exactly 72 hours. *)
Lemma main_fresh_token_skips_login_witness :
  (exists tr,
     main sample_time_Parse sample_time_ParseDuration env_fresh
       (FlagsOk sample_flags) = Some (0, tr) /\
     login_invoked tr = false) /\
  login_invoked
    (trace (st (oidcLogin_enter (start_result (login env_at_threshold))
                  (start_time (login env_at_threshold))
                  (snd threshold_first)))) = true /\
  (is_Some (main sample_time_Parse sample_time_ParseDuration env_at_threshold
              (FlagsOk sample_flags)) <->
   is_Some (oidcLogin (login env_at_threshold) (snd threshold_first))) /\
  (forall code tr,
     main sample_time_Parse sample_time_ParseDuration env_at_threshold
       (FlagsOk sample_flags) = Some (code, tr) ->
     login_invoked tr = true).
Proof.
  split.
  - apply (proj1 (main_fresh_token_skips_login sample_time_Parse
                    sample_time_ParseDuration env_fresh sample_flags
                    (72 * Hour) (100051200 * Second)
                    {| address := vaultAddr sample_flags; token := "" |}
                    (snd (ttl sample_time_Parse (world1 env_fresh)
                            (os_ExpandEnv env_fresh
                               (unexpandedTokenPath sample_flags))
                            {| client := {| address := vaultAddr sample_flags;
                                            token := "" |};
                               trace := [] |}))
                    eq_refl eq_refl ltac:(vm_compute; reflexivity))).
    vm_compute. reflexivity.
  - apply (proj2 (main_fresh_token_skips_login sample_time_Parse
                    sample_time_ParseDuration env_at_threshold sample_flags
                    (72 * Hour) (72 * Hour)
                    {| address := vaultAddr sample_flags; token := "" |}
                    (snd threshold_first)
                    eq_refl eq_refl ltac:(vm_compute; reflexivity))).
    vm_compute. discriminate.
Defined.


(** ** The further properties at concrete inputs *)

Lemma ttl_ignores_prior_token_witness :
  fst (ttl sample_time_Parse
         (sample_world sample_now (expires_at "2030-01-01T00:00:00Z"))
         sample_path sample_st) =
  fst (ttl sample_time_Parse
         (sample_world sample_now (expires_at "2030-01-01T00:00:00Z"))
         sample_path
         {| client := {| address := "https://vault.acme.com"; token := "s.old" |};
            trace := [EExit 0] |}).
Proof.
  apply (ttl_ignores_prior_token sample_time_Parse
           (sample_world sample_now (expires_at "2030-01-01T00:00:00Z"))
           sample_path sample_st
           {| client := {| address := "https://vault.acme.com"; token := "s.old" |};
              trace := [EExit 0] |}).
  reflexivity.
Defined.

Lemma ttl_unreadable_leaves_client_witness :
  fst (ttl sample_time_Parse unreadable_world sample_path sample_st) =
    Returned 0 /\
  client (snd (ttl sample_time_Parse unreadable_world sample_path sample_st)) =
    sample_client /\
  existsb is_ELookupSelf
    (ttl_effects sample_time_Parse unreadable_world sample_path sample_st) = false.
Proof.
  apply (ttl_unreadable_leaves_client sample_time_Parse unreadable_world
           sample_path sample_st).
  right. exists (ErrOther "permission denied"). reflexivity.
Defined.

Lemma done_is_empty_at_send_witness :
  done (sup_after sample_now [Tick (5 * Second); ProcExit (WExited 0)]) = None /\
  pc (sup_after sample_now [Tick (5 * Second); ProcExit (WExited 0)]) = PRecv.
Proof.
  apply (done_is_empty_at_send sample_now sample_st
           [Tick (5 * Second); ProcExit (WExited 0)]).
  - vm_compute. reflexivity.
  - vm_compute. eexists. reflexivity.
Defined.

Lemma no_signal_before_deadline_witness :
  sample_now + 90 * Second <= clock (sup_after sample_now sched_escalation).
Proof.
  apply (no_signal_before_deadline sample_now sample_st sched_escalation
           (sup_after sample_now sched_escalation)).
  - vm_compute. reflexivity.
  - vm_compute. lia.
Defined.

Lemma each_signal_at_most_once_witness :
  (count (sends SIGTERM)
     (effects_since (trace sample_st)
        (trace (st (sup_after sample_now sched_escalation)))) <= 1)%nat /\
  (count (sends SIGKILL)
     (effects_since (trace sample_st)
        (trace (st (sup_after sample_now sched_escalation)))) <= 1)%nat.
Proof.
  apply (each_signal_at_most_once sample_now sample_st sched_escalation).
  vm_compute. reflexivity.
Defined.

Lemma early_return_never_signals_witness :
  count (sends SIGTERM)
    (effects_since (trace sample_st)
       (trace (st (set_clock (sup_after sample_now sched_clean_exit)
                     (sample_now + 105 * Second))))) = 0%nat /\
  count (sends SIGKILL)
    (effects_since (trace sample_st)
       (trace (st (set_clock (sup_after sample_now sched_clean_exit)
                     (sample_now + 105 * Second))))) = 0%nat.
Proof.
  apply (early_return_never_signals sample_now sample_st sched_clean_exit
           [Tick (100 * Second)] (sup_after sample_now sched_clean_exit)
           (set_clock (sup_after sample_now sched_clean_exit)
              (sample_now + 105 * Second))
           None).
  - vm_compute. reflexivity.
  - vm_compute. reflexivity.
  - vm_compute. reflexivity.
  - vm_compute. reflexivity.
Defined.

Lemma returns_within_five_events_witness :
  exists evs' s',
    (length evs' <= 5)%nat /\
    run (sup_after sample_now [Tick (5 * Second); ProcExit (WExited 1)]) evs'
      = Some s' /\
    pc s' = PReturned (login_result (cmd_Wait (WExited 1))).
Proof.
  apply (returns_within_five_events sample_now sample_st
           [Tick (5 * Second); ProcExit (WExited 1)]).
  - vm_compute. reflexivity.
  - vm_compute. reflexivity.
Defined.

Lemma oidcLogin_effects_witness :
  client (st (sup_after sample_now sched_escalation)) = client sample_st /\
  exists ext,
    trace (st (sup_after sample_now sched_escalation)) =
      trace sample_st ++ EStart (login_argv (client sample_st)) :: ext /\
    forallb supervision_kind ext = true /\
    count is_EStart ext = 0%nat /\
    count is_EReadFile ext = 0%nat /\
    count is_ELookupSelf ext = 0%nat /\
    count is_EExit ext = 0%nat.
Proof.
  apply (oidcLogin_effects
           {| start_result := None; start_time := sample_now;
              schedule := sched_escalation |}
           sample_st (st (sup_after sample_now sched_escalation))
           (Some (Errorf "error during OIDC login: %v"
                    (ExitError (WSignaled SIGKILL))))).
  vm_compute. reflexivity.
Defined.

(** The server answers the first lookup with an empty body. *)
Lemma main_exits_once_witness :
  (2 = 0 \/ 2 = 1 \/ 2 = 2) /\
  (exists tr' last,
     main_trace env_empty_body (FlagsOk sample_flags) = tr' ++ [last] /\
     count ends_run tr' = 0%nat /\
     (last = EExit 2 \/ (2 = 2 /\ last = EPanic nil_dereference))) /\
  (2 = 2 ->
   (exists err, FlagsOk sample_flags = FlagsBad err) \/
   exists tr',
     main_trace env_empty_body (FlagsOk sample_flags) =
       tr' ++ [EPanic nil_dereference]).
Proof.
  apply (main_exits_once sample_time_Parse sample_time_ParseDuration
           env_empty_body (FlagsOk sample_flags) 2
           (main_trace env_empty_body (FlagsOk sample_flags))).
  vm_compute. reflexivity.
Defined.

Example help_exits_zero :
  main sample_time_Parse sample_time_ParseDuration env_fresh FlagsHelp =
    Some (0, [EUsage None; EExit 0]).
Proof. reflexivity. Qed.

Example bad_flag_exits_two :
  main sample_time_Parse sample_time_ParseDuration env_fresh
    (FlagsBad (ErrOther "flag provided but not defined: -x")) =
    Some (2, [EUsage (Some (ErrOther "flag provided but not defined: -x"));
              EExit 2]).
Proof. reflexivity. Qed.

Lemma main_starts_login_at_most_once_witness :
  (count is_EStart (main_trace env_renewed (FlagsOk sample_flags)) <= 1)%nat /\
  (forall argv,
     In (EStart argv) (main_trace env_renewed (FlagsOk sample_flags)) ->
     exists fl c,
       FlagsOk sample_flags = FlagsOk fl /\
       api_NewClient env_renewed (vaultAddr fl) = inr c /\
       argv = ["vault"; "login"; "-method=oidc"; "-address"; address c]%string).
Proof.
  apply (main_starts_login_at_most_once sample_time_Parse
           sample_time_ParseDuration env_renewed (FlagsOk sample_flags) 0
           (main_trace env_renewed (FlagsOk sample_flags))).
  vm_compute. reflexivity.
Defined.

Lemma main_child_failure_is_fatal_witness :
  main sample_time_Parse sample_time_ParseDuration env_at_threshold
    (FlagsOk sample_flags) =
    Some (1, trace (st threshold_final) ++
             [ELog "### error doing vault login: %v"
                [AErr (Errorf "error during OIDC login: %v"
                         (ExitError (WExited 1)))];
              EExit 1]).
Proof.
  apply (main_child_failure_is_fatal sample_time_Parse sample_time_ParseDuration
           env_at_threshold sample_flags (72 * Hour) (72 * Hour)
           {| address := vaultAddr sample_flags; token := "" |}
           (snd threshold_first) threshold_final (WExited 1)
           (Some (Errorf "error during OIDC login: %v" (ExitError (WExited 1))))).
  - reflexivity.
  - reflexivity.
  - vm_compute. reflexivity.
  - vm_compute. discriminate.
  - reflexivity.
  - vm_compute. reflexivity.
  - vm_compute. reflexivity.
  - vm_compute. reflexivity.
  - discriminate.
Defined.

Lemma main_exit_zero_means_witness :
  FlagsOk sample_flags = FlagsHelp \/
  exists fl minTTL c currTTL s1,
    FlagsOk sample_flags = FlagsOk fl /\
    sample_time_ParseDuration (minTTLStr fl) = inr minTTL /\
    api_NewClient env_renewed (vaultAddr fl) = inr c /\
    ttl sample_time_Parse (world1 env_renewed)
      (os_ExpandEnv env_renewed (unexpandedTokenPath fl))
      {| client := c; trace := [] |} = (Returned currTTL, s1) /\
    ((minTTL < currTTL /\
      count is_EStart (main_trace env_renewed (FlagsOk sample_flags)) = 0%nat) \/
     (currTTL <= minTTL /\ start_result (login env_renewed) = None /\
      exists sf,
        run (oidcLogin_enter None (start_time (login env_renewed)) s1)
          (schedule (login env_renewed)) = Some sf /\
        proc sf = Exited (WExited 0))).
Proof.
  apply (main_exit_zero_means sample_time_Parse sample_time_ParseDuration
           env_renewed (FlagsOk sample_flags)
           (main_trace env_renewed (FlagsOk sample_flags))).
  vm_compute. reflexivity.
Defined.

Lemma main_touches_only_token_path_witness :
  (count is_EStat (main_trace env_renewed (FlagsOk sample_flags)) <= 2)%nat /\
  (forall q,
     In (EStat q) (main_trace env_renewed (FlagsOk sample_flags)) \/
     In (EReadFile q) (main_trace env_renewed (FlagsOk sample_flags)) ->
     exists fl, FlagsOk sample_flags = FlagsOk fl /\
                q = os_ExpandEnv env_renewed (unexpandedTokenPath fl)).
Proof.
  apply (main_touches_only_token_path sample_time_Parse
           sample_time_ParseDuration env_renewed (FlagsOk sample_flags) 0
           (main_trace env_renewed (FlagsOk sample_flags))).
  vm_compute. reflexivity.
Defined.

Example renewed_run_stats_twice :
  count is_EStat (main_trace env_renewed (FlagsOk sample_flags)) = 2%nat /\
  count is_EStart (main_trace env_renewed (FlagsOk sample_flags)) = 1%nat.
Proof. split; vm_compute; reflexivity. Qed.
